(** * Bookshop backend: the request handlers of [backend/app.py] over the
      schema of [backend/models.py]

    The handlers are embedded as functions of a small state-and-exception
    monad over the relational store.  The store follows the declarations of
    [models.py] column by column: a column declared [nullable=False] (or
    part of a primary key) has a plain type in the row record and its
    absence at INSERT time is an [IntegrityError]; a nullable column is an
    [option].  Objects built by a handler ([User(...)], [Order(...)]) are
    kept apart from rows: every attribute of such an instance is optional
    and its primary key stays [None] until the unit of work is flushed.
    What a handler returns through [to_dict] is serialised the way
    [SerializerMixin] does it under the [serialize_rules] of the models,
    relationships included, so that a request whose answer cannot be
    serialised ends with the exception, after whatever it committed. *)

From Stdlib Require Import ZArith QArith List String Ascii Bool Lia.
Import ListNotations.

Open Scope Z_scope.

(** ** Python truthiness of the values the handlers test with [not] *)

Definition truthy_int (x : option Z) : bool :=
  match x with
  | None => false
  | Some n => negb (n =? 0)
  end.

Definition truthy_num (x : option Q) : bool :=
  match x with
  | None => false
  | Some q => negb (Qnum q =? 0)
  end.

Definition truthy_str (x : option string) : bool :=
  match x with
  | None => false
  | Some s => negb (String.eqb s EmptyString)
  end.

Definition truthy_bool (x : option bool) : bool :=
  match x with
  | Some true => true
  | _ => false
  end.

(** ** [re.match] for the pattern of [User.validate_email]

    A matcher by derivatives for the fragment the pattern uses: character
    classes, concatenation and [+]. *)

Module Re.

Inductive regex : Type :=
| Void : regex
| Eps : regex
| Class : (ascii -> bool) -> regex
| Cat : regex -> regex -> regex
| Alt : regex -> regex -> regex
| Star : regex -> regex.

Definition Plus (r : regex) : regex := Cat r (Star r).

Fixpoint nullable (r : regex) : bool :=
  match r with
  | Void => false
  | Eps => true
  | Class _ => false
  | Cat r1 r2 => nullable r1 && nullable r2
  | Alt r1 r2 => nullable r1 || nullable r2
  | Star _ => true
  end.

Fixpoint deriv (c : ascii) (r : regex) : regex :=
  match r with
  | Void => Void
  | Eps => Void
  | Class p => if p c then Eps else Void
  | Cat r1 r2 =>
      if nullable r1
      then Alt (Cat (deriv c r1) r2) (deriv c r2)
      else Cat (deriv c r1) r2
  | Alt r1 r2 => Alt (deriv c r1) (deriv c r2)
  | Star r1 => Cat (deriv c r1) (Star r1)
  end.

Fixpoint fullmatch (r : regex) (s : string) : bool :=
  match s with
  | EmptyString => nullable r
  | String c s' => fullmatch (deriv c r) s'
  end.

(** The language of an expression, to state what [fullmatch] decides. *)
Inductive matches : regex -> string -> Prop :=
| matches_eps : matches Eps EmptyString
| matches_class (p : ascii -> bool) (c : ascii) :
    p c = true -> matches (Class p) (String c EmptyString)
| matches_cat (r1 r2 : regex) (s1 s2 : string) :
    matches r1 s1 -> matches r2 s2 -> matches (Cat r1 r2) (s1 ++ s2)
| matches_alt_l (r1 r2 : regex) (s : string) :
    matches r1 s -> matches (Alt r1 r2) s
| matches_alt_r (r1 r2 : regex) (s : string) :
    matches r2 s -> matches (Alt r1 r2) s
| matches_star_nil (r : regex) : matches (Star r) EmptyString
| matches_star_app (r : regex) (s1 s2 : string) :
    matches r s1 -> matches (Star r) s2 -> matches (Star r) (s1 ++ s2).

(** Every character of [s] is in the class [p]. *)
Fixpoint all_chars (p : ascii -> bool) (s : string) : bool :=
  match s with
  | EmptyString => true
  | String c s' => p c && all_chars p s'
  end.

(** A nonempty string of characters of the class [p]. *)
Definition word (p : ascii -> bool) (s : string) : Prop :=
  s <> EmptyString /\ all_chars p s = true.

(** The string without its last character when that character is a
    newline. *)
Fixpoint chomp (s : string) : option string :=
  match s with
  | EmptyString => None
  | String c EmptyString => if Ascii.eqb c "010"%char then Some EmptyString else None
  | String c s' =>
      match chomp s' with
      | Some t => Some (String c t)
      | None => None
      end
  end.

(** [re.match("^" r "$", s)]: without [re.MULTILINE], [$] matches at the
    end of the string and also just before a newline that ends it. *)
Definition match_anchored (r : regex) (s : string) : bool :=
  fullmatch r s ||
  match chomp s with
  | Some t => fullmatch r t
  | None => false
  end.

End Re.

Definition in_range (lo hi : nat) (c : ascii) : bool :=
  (Nat.leb lo (nat_of_ascii c) && Nat.leb (nat_of_ascii c) hi)%bool.

(** [a-zA-Z0-9] *)
Definition alnum (c : ascii) : bool :=
  in_range 97 122 c || in_range 65 90 c || in_range 48 57 c.

Definition one_of (cs : string) (c : ascii) : bool :=
  existsb (Ascii.eqb c) (list_ascii_of_string cs).

(** The three classes of the pattern of [User.validate_email]:
    [[a-zA-Z0-9_.+-]], [[a-zA-Z0-9-]] and [[a-zA-Z0-9-.]]. *)
Definition local_char (c : ascii) : bool := alnum c || one_of "_.+-" c.
Definition domain_char (c : ascii) : bool := alnum c || one_of "-" c.
Definition suffix_char (c : ascii) : bool := alnum c || one_of "-." c.

(** [r'^[a-zA-Z0-9_.+-]+@[a-zA-Z0-9-]+\.[a-zA-Z0-9-.]+$'] *)
Definition valid_email : Re.regex :=
  Re.Cat (Re.Plus (Re.Class local_char))
 (Re.Cat (Re.Class (Ascii.eqb "@"%char))
 (Re.Cat (Re.Plus (Re.Class domain_char))
 (Re.Cat (Re.Class (Ascii.eqb "."%char))
         (Re.Plus (Re.Class suffix_char))))).

(** ** Rows of the tables of [models.py] *)

Module User.
Record t : Type := mk {
  id : Z;
  name : string;
  email : string;
  password_hash : string;
  is_admin : option bool
}.
End User.

Module Category.
Record t : Type := mk {
  id : Z;
  name : string
}.
End Category.

Module Book.
Record t : Type := mk {
  id : Z;
  title : string;
  author : string;
  price : Q;
  description : option string;
  stock : option Z;
  category_id : option Z;
  is_available_for_borrowing : option bool
}.
End Book.

Module Order.
Record t : Type := mk {
  id : Z;
  order_date : Z;
  status : string;
  user_id : option Z
}.
End Order.

(** A row of the association table [order_books]. *)
Module OrderBook.
Record t : Type := mk {
  order_id : Z;
  book_id : Z;
  quantity : Z
}.
End OrderBook.

Module Borrowing.
Record t : Type := mk {
  id : Z;
  borrow_date : Z;
  due_date : Z;
  return_date : option Z;
  user_id : Z;
  book_id : Z
}.
End Borrowing.

Module Cart.
Record t : Type := mk {
  id : Z;
  user_id : Z
}.
End Cart.

Module CartItem.
Record t : Type := mk {
  id : Z;
  cart_id : Z;
  book_id : Z;
  quantity : Z
}.
End CartItem.

Module MpesaTransaction.
Record t : Type := mk {
  id : Z;
  user_id : Z;
  amount : Q;
  transaction_date : Z;
  mpesa_receipt : string;
  status : string
}.
End MpesaTransaction.

(** The relational store: one list of rows per table, in insertion order. *)
Record Database : Type := mkDatabase {
  users : list User.t;
  categories : list Category.t;
  books : list Book.t;
  orders : list Order.t;
  order_books : list OrderBook.t;
  borrowings : list Borrowing.t;
  carts : list Cart.t;
  cart_items : list CartItem.t;
  mpesa_transactions : list MpesaTransaction.t
}.

Definition set_users (d : Database) (l : list User.t) : Database :=
  mkDatabase l (categories d) (books d) (orders d) (order_books d)
             (borrowings d) (carts d) (cart_items d) (mpesa_transactions d).

Definition set_orders (d : Database) (l : list Order.t) : Database :=
  mkDatabase (users d) (categories d) (books d) l (order_books d)
             (borrowings d) (carts d) (cart_items d) (mpesa_transactions d).

Definition set_order_books (d : Database) (l : list OrderBook.t) : Database :=
  mkDatabase (users d) (categories d) (books d) (orders d) l
             (borrowings d) (carts d) (cart_items d) (mpesa_transactions d).

Definition set_carts (d : Database) (l : list Cart.t) : Database :=
  mkDatabase (users d) (categories d) (books d) (orders d) (order_books d)
             (borrowings d) l (cart_items d) (mpesa_transactions d).

Definition set_mpesa_transactions (d : Database) (l : list MpesaTransaction.t) : Database :=
  mkDatabase (users d) (categories d) (books d) (orders d) (order_books d)
             (borrowings d) (carts d) (cart_items d) l.

(** ** Exceptions and results *)

Inductive Constraint : Type :=
| NotNull (table column : string)
| Unique (table column : string).

Inductive Exn : Type :=
| ValueError (msg : string)
| TypeError (msg : string)
| KeyError (key : string)
| IntegrityError (violated : Constraint)
| OverflowError (msg : string)
| RecursionError
| JWTError (msg : string).

Inductive result (A : Type) : Type :=
| Ok (a : A)
| Raise (e : Exn).

Arguments Ok {A} a.
Arguments Raise {A} e.

Definition rbind {A B : Type} (r : result A) (k : A -> result B) : result B :=
  match r with
  | Ok a => k a
  | Raise e => Raise e
  end.

Notation "x <~ c1 ;; c2" := (rbind c1 (fun x => c2))
  (at level 61, c1 at next level, right associativity).

(** A column that is [nullable=False] and has no default: the INSERT fails
    when the statement carries no value for it. *)
Definition require {A : Type} (table column : string) (v : option A) : result A :=
  match v with
  | Some a => Ok a
  | None => Raise (IntegrityError (NotNull table column))
  end.

(** A column with a default: the default is used when no value is given. *)
Definition default {A : Type} (dflt : A) (v : option A) : A :=
  match v with
  | Some a => a
  | None => dflt
  end.

(** An autoincremented integer primary key: one more than the largest key
    of the table. *)
Definition next_id (ids : list Z) : Z := 1 + fold_right Z.max 0 ids.

(** ** Instances of the mapped classes

    What a handler holds after [User(...)], [Cart(...)], [Order(...)] or
    [MpesaTransaction(...)]: attributes the constructor was not given are
    [None], and so is [id] as long as the instance has not been flushed. *)

Module UserObj.
Record t : Type := mk {
  id : option Z;
  name : option string;
  email : option string;
  password_hash : option string;
  is_admin : option bool
}.
End UserObj.

Module CartObj.
Record t : Type := mk {
  id : option Z;
  user_id : option Z
}.
End CartObj.

Module OrderObj.
Record t : Type := mk {
  id : option Z;
  order_date : option Z;
  status : option string;
  user_id : option Z;
  books : list Book.t          (* the [books] relationship collection *)
}.
End OrderObj.

Module MpesaTransactionObj.
Record t : Type := mk {
  id : option Z;
  user_id : option Z;
  amount : option Q;
  transaction_date : option Z;
  mpesa_receipt : option string;
  status : option string
}.
End MpesaTransactionObj.

Inductive Instance : Type :=
| IUser (o : UserObj.t)
| ICart (o : CartObj.t)
| IOrder (o : OrderObj.t)
| ITransaction (o : MpesaTransactionObj.t).

(** ** INSERT statements, with the constraints the tables declare *)

(** [order_books.insert().values(order_id=.., book_id=.., quantity=..)].
    [order_id] and [book_id] form the primary key, [quantity] is
    [nullable=False, default=1]: the outer [None] of [quantity] is a
    statement that does not name the column, for which the default is
    taken; [Some None] is an explicit NULL. *)
Definition quantity_default : Z := 1.

Definition order_books_insert (d : Database)
    (order_id book_id : option Z) (quantity : option (option Z)) : result Database :=
  o <~ require "order_books" "order_id" order_id ;;
  b <~ require "order_books" "book_id" book_id ;;
  q <~ require "order_books" "quantity" (default (Some quantity_default) quantity) ;;
  if existsb (fun r => (OrderBook.order_id r =? o) && (OrderBook.book_id r =? b))
             (order_books d)
  then Raise (IntegrityError (Unique "order_books" "order_id, book_id"))
  else Ok (set_order_books d (order_books d ++ [OrderBook.mk o b q])).

(** The rows the unit of work writes for the [books] collection of a new
    order (the relationship has [secondary=order_books]): only the two keys
    are given, so [quantity] takes its default. *)
Fixpoint order_books_link (d : Database) (order_id : Z) (bs : list Book.t) : result Database :=
  match bs with
  | [] => Ok d
  | b :: bs' =>
      d' <~ order_books_insert d (Some order_id) (Some (Book.id b)) None ;;
      order_books_link d' order_id bs'
  end.

Definition insert_user (d : Database) (o : UserObj.t) : result (UserObj.t * Database) :=
  n <~ require "users" "name" (UserObj.name o) ;;
  e <~ require "users" "email" (UserObj.email o) ;;
  h <~ require "users" "password_hash" (UserObj.password_hash o) ;;
  if existsb (fun u => String.eqb (User.email u) e) (users d)
  then Raise (IntegrityError (Unique "users" "email"))
  else
    let i := next_id (map User.id (users d)) in
    let a := Some (default false (UserObj.is_admin o)) in
    Ok (UserObj.mk (Some i) (Some n) (Some e) (Some h) a,
        set_users d (users d ++ [User.mk i n e h a])).

Definition insert_cart (d : Database) (o : CartObj.t) : result (CartObj.t * Database) :=
  u <~ require "carts" "user_id" (CartObj.user_id o) ;;
  let i := next_id (map Cart.id (carts d)) in
  Ok (CartObj.mk (Some i) (Some u), set_carts d (carts d ++ [Cart.mk i u])).

Definition insert_order (now : Z) (d : Database) (o : OrderObj.t)
  : result (OrderObj.t * Database) :=
  let i := next_id (map Order.id (orders d)) in
  let t := default now (OrderObj.order_date o) in
  let s := default "Pending"%string (OrderObj.status o) in
  let d1 := set_orders d (orders d ++ [Order.mk i t s (OrderObj.user_id o)]) in
  d2 <~ order_books_link d1 i (OrderObj.books o) ;;
  Ok (OrderObj.mk (Some i) (Some t) (Some s) (OrderObj.user_id o) (OrderObj.books o), d2).

Definition insert_mpesa_transaction (now : Z) (d : Database) (o : MpesaTransactionObj.t)
  : result (MpesaTransactionObj.t * Database) :=
  u <~ require "mpesa_transactions" "user_id" (MpesaTransactionObj.user_id o) ;;
  a <~ require "mpesa_transactions" "amount" (MpesaTransactionObj.amount o) ;;
  r <~ require "mpesa_transactions" "mpesa_receipt" (MpesaTransactionObj.mpesa_receipt o) ;;
  if existsb (fun x => String.eqb (MpesaTransaction.mpesa_receipt x) r) (mpesa_transactions d)
  then Raise (IntegrityError (Unique "mpesa_transactions" "mpesa_receipt"))
  else
    let i := next_id (map MpesaTransaction.id (mpesa_transactions d)) in
    let t := default now (MpesaTransactionObj.transaction_date o) in
    let s := default "Pending"%string (MpesaTransactionObj.status o) in
    Ok (MpesaTransactionObj.mk (Some i) (Some u) (Some a) (Some t) (Some r) (Some s),
        set_mpesa_transactions d
          (mpesa_transactions d ++ [MpesaTransaction.mk i u a t r s])).

(** Flushing one instance: a pending one (no primary key yet) is inserted
    and receives its key and the column defaults; a persistent one is left
    alone. *)
Definition flush_instance (now : Z) (d : Database) (i : Instance)
  : result (Instance * Database) :=
  match i with
  | IUser o =>
      match UserObj.id o with
      | Some _ => Ok (i, d)
      | None => p <~ insert_user d o ;; Ok (IUser (fst p), snd p)
      end
  | ICart o =>
      match CartObj.id o with
      | Some _ => Ok (i, d)
      | None => p <~ insert_cart d o ;; Ok (ICart (fst p), snd p)
      end
  | IOrder o =>
      match OrderObj.id o with
      | Some _ => Ok (i, d)
      | None => p <~ insert_order now d o ;; Ok (IOrder (fst p), snd p)
      end
  | ITransaction o =>
      match MpesaTransactionObj.id o with
      | Some _ => Ok (i, d)
      | None => p <~ insert_mpesa_transaction now d o ;; Ok (ITransaction (fst p), snd p)
      end
  end.

Fixpoint flush_instances (now : Z) (d : Database) (l : list Instance)
  : result (list Instance * Database) :=
  match l with
  | [] => Ok ([], d)
  | i :: l' =>
      p <~ flush_instance now d i ;;
      q <~ flush_instances now (snd p) l' ;;
      Ok (fst p :: fst q, snd q)
  end.

(** ** The state a handler runs in

    [durable] is the committed database, [current] the database as the open
    transaction sees it, [identity] the instances given to
    [db.session.add], in that order (a handler keeps the position as its
    reference to the object, so that a flush is seen through every
    reference), [session] the value of the Flask session key ['user_id']
    and [clock] the time of the request. *)

Record World : Type := mkWorld {
  durable : Database;
  current : Database;
  identity : list Instance;
  session : option Z;
  clock : Z
}.

Definition M (A : Type) : Type := World -> result A * World.

Definition ret {A : Type} (a : A) : M A := fun w => (Ok a, w).

Definition raise {A : Type} (e : Exn) : M A := fun w => (Raise e, w).

Definition bind {A B : Type} (m : M A) (k : A -> M B) : M B :=
  fun w =>
    match m w with
    | (Ok a, w') => k a w'
    | (Raise e, w') => (Raise e, w')
    end.

Notation "x <- c1 ;; c2" := (bind c1 (fun x => c2))
  (at level 61, c1 at next level, right associativity).

Definition lift {A : Type} (r : result A) : M A := fun w => (r, w).

(** [db.session.flush()]: every pending instance is inserted; the
    instances are updated in place, which is when a new object receives
    its [id]. *)
Definition flush : M unit :=
  fun w =>
    match flush_instances (clock w) (current w) (identity w) with
    | Ok (l, d) => (Ok tt, mkWorld (durable w) d l (session w) (clock w))
    | Raise e => (Raise e, w)
    end.

(** [db.session.commit()] *)
Definition commit : M unit :=
  _ <- flush ;;
  fun w => (Ok tt, mkWorld (current w) (current w) (identity w) (session w) (clock w)).

(** [Model.query....]: the session autoflushes before it reads. *)
Definition query {A : Type} (f : Database -> A) : M A :=
  _ <- flush ;;
  fun w => (Ok (f (current w)), w).

(** [db.session.add(obj)]; the result is the reference to [obj]. *)
Definition session_add (i : Instance) : M nat :=
  fun w => (Ok (List.length (identity w)),
            mkWorld (durable w) (current w) (identity w ++ [i]) (session w) (clock w)).

(** Reading an object through its reference. *)
Definition instance (r : nat) : M Instance :=
  fun w =>
    match nth_error (identity w) r with
    | Some i => (Ok i, w)
    | None => (Raise (KeyError "instance"), w)
    end.

Fixpoint update_nth {A : Type} (n : nat) (f : A -> A) (l : list A) : list A :=
  match l, n with
  | [], _ => []
  | x :: l', O => f x :: l'
  | x :: l', S n' => x :: update_nth n' f l'
  end.

(** [order.books.append(book)] on the order behind [r]. *)
Definition books_append (r : nat) (book : Book.t) : M unit :=
  fun w =>
    let f i :=
      match i with
      | IOrder o =>
          IOrder (OrderObj.mk (OrderObj.id o) (OrderObj.order_date o) (OrderObj.status o)
                              (OrderObj.user_id o) (OrderObj.books o ++ [book]))
      | _ => i
      end in
    (Ok tt, mkWorld (durable w) (current w) (update_nth r f (identity w))
                    (session w) (clock w)).

(** [order.id] *)
Definition order_id (r : nat) : M (option Z) :=
  i <- instance r ;;
  match i with
  | IOrder o => ret (OrderObj.id o)
  | _ => raise (TypeError "Order")
  end.

(** [db.session.execute(order_books.insert().values(...))]: a Core
    statement, sent as it is inside the open transaction.  The
    constraints of the table decide; the range of the integers that are
    bound is not looked at here. *)
Definition execute_order_books_insert (order_id book_id quantity : option Z) : M unit :=
  fun w =>
    match order_books_insert (current w) order_id book_id (Some quantity) with
    | Ok d => (Ok tt, mkWorld (durable w) d (identity w) (session w) (clock w))
    | Raise e => (Raise e, w)
    end.

(** [session.get('user_id')] and [session.pop('user_id', None)] *)
Definition session_get : M (option Z) := fun w => (Ok (session w), w).

Definition session_pop : M unit :=
  fun w => (Ok tt, mkWorld (durable w) (current w) (identity w) None (clock w)).

(** ** Responses

    A body that is made with [to_dict] is kept as the objects that were
    serialised ([Dict], [CartDict], the lists, the user of [LoginDict]);
    [serialize] below computes the dictionaries and decides whether the
    answer is reached at all.  [access_token] is the identity that the
    token of [create_access_token(identity=user.id)] carries; the other
    fields of the token (its times and its random id) are not part of
    this model. *)

Inductive Body : Type :=
| Error (error : string)
| Message (message : string)
| Msg (msg : string)
| Dict (i : Instance)
| CartDict (c : Cart.t)
| UserList (l : list User.t)
| OrderList (l : list Order.t)
| BorrowingList (l : list Borrowing.t)
| TransactionList (l : list MpesaTransaction.t)
| LoginDict (message : string) (access_token : Z) (user : User.t)
| Json (payload : string).

Definition Response : Type := (Body * Z)%type.

(** ** Request bodies ([request.json]); a field is [None] when the key is
    absent or null. *)

Module RegisterData.
Record t : Type := mk {
  name : option string;
  email : option string;
  password : option string
}.
End RegisterData.

Module LoginData.
Record t : Type := mk {
  email : option string;
  password : option string
}.
End LoginData.

Module CartData.
Record t : Type := mk {
  book_id : option Z;
  quantity : option Z
}.
End CartData.

Module MpesaData.
Record t : Type := mk {
  amount : option Q
}.
End MpesaData.

(** ** Queries *)

(** [User.query.get(id)] *)
Definition User_get (d : Database) (id : option Z) : option User.t :=
  match id with
  | Some k => find (fun u => User.id u =? k) (users d)
  | None => None
  end.

(** [Book.query.get(id)] *)
Definition Book_get (d : Database) (id : option Z) : option Book.t :=
  match id with
  | Some k => find (fun b => Book.id b =? k) (books d)
  | None => None
  end.

(** [User.query.filter_by(email=email).first()] *)
Definition User_by_email (d : Database) (email : option string) : option User.t :=
  match email with
  | Some e => find (fun u => String.eqb (User.email u) e) (users d)
  | None => None
  end.

(** [Cart.query.filter_by(user_id=user_id).first()] *)
Definition Cart_by_user (d : Database) (user_id : Z) : option Cart.t :=
  find (fun c => Cart.user_id c =? user_id) (carts d).

(** [Order.query.filter_by(user_id=user_id).all()]; a NULL [user_id]
    equals nothing. *)
Definition Orders_by_user (d : Database) (user_id : Z) : list Order.t :=
  filter (fun o => match Order.user_id o with
                   | Some u => u =? user_id
                   | None => false
                   end) (orders d).

(** [Borrowing.query.filter_by(user_id=user_id).all()] *)
Definition Borrowings_by_user (d : Database) (user_id : Z) : list Borrowing.t :=
  filter (fun b => Borrowing.user_id b =? user_id) (borrowings d).

(** The rows behind [user.transactions]. *)
Definition Transactions_by_user (d : Database) (user_id : Z) : list MpesaTransaction.t :=
  filter (fun t => MpesaTransaction.user_id t =? user_id) (mpesa_transactions d).

(** The range of an INTEGER of the database (SQLite: 64 bits, signed). *)
Definition INTEGER_MIN : Z := - 2 ^ 63.
Definition INTEGER_MAX : Z := 2 ^ 63 - 1.

Definition bindable (x : option Z) : bool :=
  match x with
  | None => true
  | Some n => (INTEGER_MIN <=? n) && (n <=? INTEGER_MAX)
  end.

(** [Book.query.get(book_id)] with a [book_id] that comes from the body
    of the request: the driver refuses to bind an integer outside the
    range of the column.  A key that is stored lies within the range, so
    a key that is found needs no check; neither do the identities of
    tokens, which are ids that [Login.post] read from stored users. *)
Definition Book_query_get (d : Database) (id : option Z) : result (option Book.t) :=
  match Book_get d id with
  | Some b => Ok (Some b)
  | None =>
      if bindable id
      then Ok None
      else Raise (OverflowError "Python int too large to convert to SQLite INTEGER")
  end.

(** Lookups by primary key, as the session does them to reload an
    object. *)
Definition Cart_get (d : Database) (id : option Z) : option Cart.t :=
  match id with
  | Some k => find (fun c => Cart.id c =? k) (carts d)
  | None => None
  end.

Definition Order_get (d : Database) (id : option Z) : option Order.t :=
  match id with
  | Some k => find (fun o => Order.id o =? k) (orders d)
  | None => None
  end.

Definition MpesaTransaction_get (d : Database) (id : option Z) : option MpesaTransaction.t :=
  match id with
  | Some k => find (fun t => MpesaTransaction.id t =? k) (mpesa_transactions d)
  | None => None
  end.

Definition Category_get (d : Database) (id : option Z) : option Category.t :=
  match id with
  | Some k => find (fun c => Category.id c =? k) (categories d)
  | None => None
  end.

(** ** Serialisation: [SerializerMixin.to_dict] under the
    [serialize_rules] of models.py

    [to_dict] writes every column and every relationship of an object into
    a dictionary and serialises the related objects in the same way, one
    level of recursion per object.  The only thing that stops it are the
    rules: [-orders.user] in the rules of [User] removes the key [user]
    from every object under the key [orders].  The rules of an object
    that is met on the way are added to the rules that reached it.
    Nothing detects a cycle: the recursion ends when the data end or when
    the interpreter gives up with [RecursionError]. *)

#[warnings="-register-all"] Inductive json : Type :=
| JNull
| JBool (b : bool)
| JInt (z : Z)
| JNum (q : Q)
| JStr (s : string)
| JDate (t : Z)
| JList (l : list json)
| JDict (fields : list (string * json)).

Definition JOpt {A : Type} (f : A -> json) (v : option A) : json :=
  match v with
  | Some a => f a
  | None => JNull
  end.

(** An object of a mapped class: a row that was loaded, or an instance
    that is still held by the session without having been reloaded. *)
Inductive Obj : Type :=
| OUser (u : User.t)
| OCategory (c : Category.t)
| OBook (b : Book.t)
| OOrder (o : Order.t)
| OBorrowing (b : Borrowing.t)
| OCart (c : Cart.t)
| OCartItem (i : CartItem.t)
| OTransaction (t : MpesaTransaction.t)
| OInstance (i : Instance).

(** Negative rules, each as the path of keys it names: [-orders.user] is
    [["orders"; "user"]]. *)
Definition Schema : Type := list (list string).

Definition User_serialize_rules : Schema :=
  [ ["orders"; "user"]; ["orders"; "books"]; ["borrowings"; "user"];
    ["cart"; "user"]; ["transactions"; "user"] ]%string.

Definition Book_serialize_rules : Schema :=
  [ ["orders"; "books"]; ["category"; "books"]; ["borrowings"; "book"];
    ["cart_items"; "book"] ]%string.

Definition Order_serialize_rules : Schema :=
  [ ["user"; "orders"]; ["books"; "orders"] ]%string.

Definition Borrowing_serialize_rules : Schema :=
  [ ["user"; "borrowings"]; ["book"; "borrowings"] ]%string.

Definition Cart_serialize_rules : Schema :=
  [ ["user"; "cart"]; ["items"; "cart"] ]%string.

Definition CartItem_serialize_rules : Schema :=
  [ ["cart"; "items"]; ["book"; "cart_items"] ]%string.

Definition MpesaTransaction_serialize_rules : Schema :=
  [ ["user"; "transactions"] ]%string.

Definition Category_serialize_rules : Schema :=
  [ ["books"; "category"] ]%string.

Definition serialize_rules (o : Obj) : Schema :=
  match o with
  | OUser _ | OInstance (IUser _) => User_serialize_rules
  | OCategory _ => Category_serialize_rules
  | OBook _ => Book_serialize_rules
  | OOrder _ | OInstance (IOrder _) => Order_serialize_rules
  | OBorrowing _ => Borrowing_serialize_rules
  | OCart _ | OInstance (ICart _) => Cart_serialize_rules
  | OCartItem _ => CartItem_serialize_rules
  | OTransaction _ | OInstance (ITransaction _) => MpesaTransaction_serialize_rules
  end.

(** The key [k] is removed by a rule that ends at it. *)
Definition excluded (s : Schema) (k : string) : bool :=
  existsb (fun p => match p with
                    | [k'] => String.eqb k' k
                    | _ => false
                    end) s.

(** The rules that go on under the key [k]. *)
Definition fork (s : Schema) (k : string) : Schema :=
  flat_map (fun p => match p with
                     | k' :: (_ :: _) as rest => if String.eqb k' k then [rest] else []
                     | _ => []
                     end) s.

(** The value of an attribute: a column, or a relationship to one object
    or to a list of objects. *)
Inductive Attr : Type :=
| Column (j : json)
| One (o : option Obj)
| Many (l : list Obj).

(** The orders a book is linked to through [order_books], and the books of
    an order. *)
Definition Orders_of_book (d : Database) (book_id : Z) : list Order.t :=
  filter (fun o => existsb (fun r => (OrderBook.order_id r =? Order.id o) &&
                                     (OrderBook.book_id r =? book_id))
                           (order_books d)) (orders d).

Definition Books_of_order (d : Database) (order_id : Z) : list Book.t :=
  filter (fun b => existsb (fun r => (OrderBook.order_id r =? order_id) &&
                                     (OrderBook.book_id r =? Book.id b))
                           (order_books d)) (books d).

(** The columns and the relationships of an object, as the mapper lists
    them; the relationships are loaded from the database. *)
Definition attributes (d : Database) (o : Obj) : list (string * Attr) :=
  match o with
  | OUser u =>
      [ ("id", Column (JInt (User.id u)));
        ("name", Column (JStr (User.name u)));
        ("email", Column (JStr (User.email u)));
        ("password_hash", Column (JStr (User.password_hash u)));
        ("is_admin", Column (JOpt JBool (User.is_admin u)));
        ("orders", Many (map OOrder (Orders_by_user d (User.id u))));
        ("borrowings", Many (map OBorrowing (Borrowings_by_user d (User.id u))));
        ("cart", One (option_map OCart (Cart_by_user d (User.id u))));
        ("transactions", Many (map OTransaction (Transactions_by_user d (User.id u)))) ]
  | OCategory c =>
      [ ("id", Column (JInt (Category.id c)));
        ("name", Column (JStr (Category.name c)));
        ("books",
         Many (map OBook
                   (filter (fun b => match Book.category_id b with
                                     | Some k => Z.eqb k (Category.id c)
                                     | None => false
                                     end) (books d)))) ]
  | OBook b =>
      [ ("id", Column (JInt (Book.id b)));
        ("title", Column (JStr (Book.title b)));
        ("author", Column (JStr (Book.author b)));
        ("price", Column (JNum (Book.price b)));
        ("description", Column (JOpt JStr (Book.description b)));
        ("stock", Column (JOpt JInt (Book.stock b)));
        ("category_id", Column (JOpt JInt (Book.category_id b)));
        ("is_available_for_borrowing",
         Column (JOpt JBool (Book.is_available_for_borrowing b)));
        ("category", One (option_map OCategory (Category_get d (Book.category_id b))));
        ("orders", Many (map OOrder (Orders_of_book d (Book.id b))));
        ("borrowings",
         Many (map OBorrowing
                   (filter (fun x => Z.eqb (Borrowing.book_id x) (Book.id b)) (borrowings d))));
        ("cart_items",
         Many (map OCartItem
                   (filter (fun x => Z.eqb (CartItem.book_id x) (Book.id b)) (cart_items d)))) ]
  | OOrder x =>
      [ ("id", Column (JInt (Order.id x)));
        ("order_date", Column (JDate (Order.order_date x)));
        ("status", Column (JStr (Order.status x)));
        ("user_id", Column (JOpt JInt (Order.user_id x)));
        ("user", One (option_map OUser (User_get d (Order.user_id x))));
        ("books", Many (map OBook (Books_of_order d (Order.id x)))) ]
  | OBorrowing x =>
      [ ("id", Column (JInt (Borrowing.id x)));
        ("borrow_date", Column (JDate (Borrowing.borrow_date x)));
        ("due_date", Column (JDate (Borrowing.due_date x)));
        ("return_date", Column (JOpt JDate (Borrowing.return_date x)));
        ("user_id", Column (JInt (Borrowing.user_id x)));
        ("book_id", Column (JInt (Borrowing.book_id x)));
        ("user", One (option_map OUser (User_get d (Some (Borrowing.user_id x)))));
        ("book", One (option_map OBook (Book_get d (Some (Borrowing.book_id x))))) ]
  | OCart c =>
      [ ("id", Column (JInt (Cart.id c)));
        ("user_id", Column (JInt (Cart.user_id c)));
        ("user", One (option_map OUser (User_get d (Some (Cart.user_id c)))));
        ("items",
         Many (map OCartItem
                   (filter (fun x => Z.eqb (CartItem.cart_id x) (Cart.id c)) (cart_items d)))) ]
  | OCartItem x =>
      [ ("id", Column (JInt (CartItem.id x)));
        ("cart_id", Column (JInt (CartItem.cart_id x)));
        ("book_id", Column (JInt (CartItem.book_id x)));
        ("quantity", Column (JInt (CartItem.quantity x)));
        ("cart", One (option_map OCart (Cart_get d (Some (CartItem.cart_id x)))));
        ("book", One (option_map OBook (Book_get d (Some (CartItem.book_id x))))) ]
  | OTransaction t =>
      [ ("id", Column (JInt (MpesaTransaction.id t)));
        ("user_id", Column (JInt (MpesaTransaction.user_id t)));
        ("amount", Column (JNum (MpesaTransaction.amount t)));
        ("transaction_date", Column (JDate (MpesaTransaction.transaction_date t)));
        ("mpesa_receipt", Column (JStr (MpesaTransaction.mpesa_receipt t)));
        ("status", Column (JStr (MpesaTransaction.status t)));
        ("user", One (option_map OUser (User_get d (Some (MpesaTransaction.user_id t))))) ]
  | OInstance (IUser x) =>
      [ ("id", Column (JOpt JInt (UserObj.id x)));
        ("name", Column (JOpt JStr (UserObj.name x)));
        ("email", Column (JOpt JStr (UserObj.email x)));
        ("password_hash", Column (JOpt JStr (UserObj.password_hash x)));
        ("is_admin", Column (JOpt JBool (UserObj.is_admin x)));
        ("orders", Many []); ("borrowings", Many []); ("cart", One None);
        ("transactions", Many []) ]
  | OInstance (ICart x) =>
      [ ("id", Column (JOpt JInt (CartObj.id x)));
        ("user_id", Column (JOpt JInt (CartObj.user_id x)));
        ("user", One None); ("items", Many []) ]
  | OInstance (IOrder x) =>
      [ ("id", Column (JOpt JInt (OrderObj.id x)));
        ("order_date", Column (JOpt JDate (OrderObj.order_date x)));
        ("status", Column (JOpt JStr (OrderObj.status x)));
        ("user_id", Column (JOpt JInt (OrderObj.user_id x)));
        ("user", One None);
        ("books", Many (map OBook (OrderObj.books x))) ]
  | OInstance (ITransaction x) =>
      [ ("id", Column (JOpt JInt (MpesaTransactionObj.id x)));
        ("user_id", Column (JOpt JInt (MpesaTransactionObj.user_id x)));
        ("amount", Column (JOpt JNum (MpesaTransactionObj.amount x)));
        ("transaction_date", Column (JOpt JDate (MpesaTransactionObj.transaction_date x)));
        ("mpesa_receipt", Column (JOpt JStr (MpesaTransactionObj.mpesa_receipt x)));
        ("status", Column (JOpt JStr (MpesaTransactionObj.status x)));
        ("user", One None) ]
  end%string.

Fixpoint map_result {A B : Type} (f : A -> result B) (l : list A) : result (list B) :=
  match l with
  | [] => Ok []
  | a :: l' =>
      b <~ f a ;;
      bs <~ map_result f l' ;;
      Ok (b :: bs)
  end.

(** One key of the dictionary: a column gives its value, a relationship
    the dictionaries of the related objects, made by [to_dict] under the
    rules that go on under the key. *)
Definition serialize_attr (to_dict : Schema -> Obj -> result json) (s : Schema)
    (ka : string * Attr) : result (string * json) :=
  match snd ka with
  | Column j => Ok (fst ka, j)
  | One None => Ok (fst ka, JNull)
  | One (Some c) =>
      j <~ to_dict (fork s (fst ka)) c ;;
      Ok (fst ka, j)
  | Many l =>
      js <~ map_result (to_dict (fork s (fst ka))) l ;;
      Ok (fst ka, JList js)
  end.

(** The keys that the rules leave. *)
Definition serializable (d : Database) (s : Schema) (o : Obj) : list (string * Attr) :=
  filter (fun ka => negb (excluded s (fst ka))) (attributes d o).

(** [to_dict] with [depth] levels of recursion left and the rules [s]
    that reached the object. *)
Fixpoint serialize (depth : nat) (d : Database) (s : Schema) (o : Obj) : result json :=
  match depth with
  | O => Raise RecursionError
  | S depth' =>
      let s' := s ++ serialize_rules o in
      fields <~ map_result (serialize_attr (serialize depth' d) s') (serializable d s' o) ;;
      Ok (JDict fields)
  end.

(** The objects that are serialised one level below [o], each with the
    rules that reach it. *)
Definition children (d : Database) (s : Schema) (o : Obj) : list (Schema * Obj) :=
  let s' := s ++ serialize_rules o in
  flat_map (fun ka : string * Attr =>
              match snd ka with
              | Column _ => []
              | One None => []
              | One (Some c) => [(fork s' (fst ka), c)]
              | Many l => map (pair (fork s' (fst ka))) l
              end)
           (serializable d s' o).

(** What a session gives for an instance it holds: after a commit the
    instance is reloaded by its primary key; an instance without a row is
    taken as it is. *)
Definition reload (d : Database) (i : Instance) : Obj :=
  match i with
  | IUser x =>
      match User_get d (UserObj.id x) with Some u => OUser u | None => OInstance i end
  | ICart x =>
      match Cart_get d (CartObj.id x) with Some c => OCart c | None => OInstance i end
  | IOrder x =>
      match Order_get d (OrderObj.id x) with Some o => OOrder o | None => OInstance i end
  | ITransaction x =>
      match MpesaTransaction_get d (MpesaTransactionObj.id x) with
      | Some t => OTransaction t
      | None => OInstance i
      end
  end.

(** The result of a handler that makes the dictionaries of the objects
    [l], in that order, and then answers [r]. *)
Definition after_to_dict (limit : nat) (d : Database) (l : list Obj) (r : Response)
  : result Response :=
  _ <~ map_result (serialize limit d []) l ;;
  Ok r.

(** ** [User]: the validator and the constructor *)

(** [User.validate_email], run whenever [email] is assigned. *)
Definition validate_email (email : option string) : result (option string) :=
  match email with
  | None => Raise (TypeError "expected string or bytes-like object")
  | Some e =>
      if Re.match_anchored valid_email e
      then Ok email
      else Raise (ValueError "Invalid email")
  end.

(** [User(name=name, email=email)] *)
Definition User_new (name email : option string) : result UserObj.t :=
  e <~ validate_email email ;;
  Ok (UserObj.mk None name e None None).

(** What a request gets that does not present a token that verifies: an
    answer of the JWT extension (401 for a missing header, 422 for a
    token that cannot be decoded, ...), or the exception of the extension
    when the error handling of the application lets it through. *)
Inductive Refusal : Type :=
| Refused (msg : string) (code : Z)
| Unhandled (e : Exn).

Definition refused (r : Refusal) : result Response :=
  match r with
  | Refused m code => Ok (Msg m, code)
  | Unhandled e => Raise e
  end.

(** [@jwt_required()]: [jwt] is the identity of the verified token of the
    request, [None] when the request presents no token that verifies; the
    handler does not run then, and the request is refused. *)
Definition jwt_required (refusal : Refusal) (jwt : option Z) (h : Z -> M Response)
  : M Response :=
  match jwt with
  | Some identity => h identity
  | None => lift (refused refusal)
  end.

Module App.

Section Handlers.

(** The password hashing of [flask_bcrypt]; the salt is drawn by the
    library at each call and is an input here. *)
Variable generate_password_hash : string -> string -> string.
Variable check_password_hash : string -> string -> bool.

(** The number of nested objects [to_dict] can go through before the
    interpreter raises [RecursionError]. *)
Variable recursion_limit : nat.

(** How the application refuses, on the route of the given rule, a
    request that presents no token that verifies: it depends on what is
    wrong with the token and on the error handling that the configuration
    of the application (config.py) sets up; the results hold for every
    choice. *)
Variable jwt_refusal : string -> Refusal.

(** [obj.to_dict()] of a loaded object. *)
Definition serialized (o : Obj) : M json :=
  fun w => (serialize recursion_limit (current w) [] o, w).

(** [[obj.to_dict() for obj in objs]] *)
Definition serialized_list (l : list Obj) : M (list json) :=
  fun w => (map_result (serialize recursion_limit (current w) []) l, w).

(** [obj.to_dict()] of the instance behind [r]: its attributes are read
    through the session. *)
Definition to_dict (r : nat) : M Body :=
  i <- instance r ;;
  _ <- (fun w => serialized (reload (current w) i) w) ;;
  ret (Dict i).

(** [user.set_password(password)] *)
Definition set_password (salt : string) (user : UserObj.t) (password : option string)
  : result UserObj.t :=
  match password with
  | None => Raise (TypeError "Password must be non-empty.")
  | Some p =>
      Ok (UserObj.mk (UserObj.id user) (UserObj.name user) (UserObj.email user)
                     (Some (generate_password_hash salt p)) (UserObj.is_admin user))
  end.

(** [is_admin()], app.py lines 39-45 *)
Definition is_admin : M (option bool) :=
  user_id <- session_get ;;
  if negb (truthy_int user_id)
  then ret (Some false)
  else
    user <- query (fun d => User_get d user_id) ;;
    match user with
    | Some u => ret (User.is_admin u)
    | None => ret (Some false)
    end.

(** [admin_check()], app.py lines 49-56 *)
Definition admin_check (jwt : option Z) : M Response :=
  jwt_required (jwt_refusal "/admin_check") jwt (fun current_user_id =>
    user <- query (fun d => User_get d (Some current_user_id)) ;;
    match user with
    | Some u =>
        if truthy_bool (User.is_admin u)
        then ret (Message "User is an admin", 200)
        else ret (Message "User is not an admin", 403)
    | None => ret (Message "User is not an admin", 403)
    end).

(** [Register.post], app.py lines 60-78 *)
Definition Register_post (salt : string) (data : RegisterData.t) : M Response :=
  let name := RegisterData.name data in
  let email := RegisterData.email data in
  let password := RegisterData.password data in
  if negb (truthy_str name) || negb (truthy_str email) || negb (truthy_str password)
  then ret (Error "Missing required fields", 400)
  else
    existing <- query (fun d => User_by_email d email) ;;
    match existing with
    | Some _ => ret (Error "Email already exists", 400)
    | None =>
        user <- lift (User_new name email) ;;
        user <- lift (set_password salt user password) ;;
        r <- session_add (IUser user) ;;
        _ <- commit ;;
        b <- to_dict r ;;
        ret (b, 201)
    end.

(** [Login.post], app.py lines 81-99 *)
Definition Login_post (data : LoginData.t) : M Response :=
  let email := LoginData.email data in
  let password := LoginData.password data in
  user <- query (fun d => User_by_email d email) ;;
  match user with
  | Some u =>
      match password with
      | None => raise (TypeError "Unicode-objects must be encoded before hashing")
      | Some p =>
          if check_password_hash (User.password_hash u) p
          then
            _ <- serialized (OUser u) ;;
            ret (LoginDict "Login successful" (User.id u) u, 200)
          else ret (Error "Invalid credentials", 401)
      end
  | None => ret (Error "Invalid credentials", 401)
  end.

(** [CartResource.get], app.py lines 128-139 *)
Definition CartResource_get (jwt : option Z) : M Response :=
  jwt_required (jwt_refusal "/cart") jwt (fun user_id =>
    cart <- query (fun d => Cart_by_user d user_id) ;;
    match cart with
    | None => ret (Error "No cart found for user", 404)
    | Some c =>
        _ <- serialized (OCart c) ;;
        ret (CartDict c, 200)
    end).

(** [CartResource.post], app.py lines 141-177.  The two queries run
    before anything is added to the session.  [db.session.add] only
    registers the new cart and the new order; [order.books.append(book)]
    changes the collection of the pending order; [order.id] is then read,
    as an argument of [values(...)], before [db.session.execute] is
    entered, from an order that no flush has reached yet. *)
Definition CartResource_post (jwt : option Z) (data : CartData.t) : M Response :=
  jwt_required (jwt_refusal "/cart") jwt (fun user_id =>
    let book_id := CartData.book_id data in
    let quantity := CartData.quantity data in
    if negb (truthy_int book_id) || negb (truthy_int quantity)
    then ret (Error "Missing required fields", 400)
    else
      found <- query (fun d => Book_query_get d book_id) ;;
      book <- lift found ;;
      match book with
      | None => ret (Error "Book not found", 404)
      | Some book =>
          cart <- query (fun d => Cart_by_user d user_id) ;;
          _ <- match cart with
               | Some _ => ret tt
               | None =>
                   _ <- session_add (ICart (CartObj.mk None (Some user_id))) ;;
                   ret tt
               end ;;
          order <- session_add (IOrder (OrderObj.mk None None None (Some user_id) [])) ;;
          _ <- books_append order book ;;
          oid <- order_id order ;;
          _ <- execute_order_books_insert oid (Some (Book.id book)) quantity ;;
          _ <- commit ;;
          b <- to_dict order ;;
          ret (b, 201)
      end).

(** [MpesaTransactionResource.post], app.py lines 224-238 *)
Definition MpesaTransactionResource_post (jwt : option Z) (data : MpesaData.t)
  : M Response :=
  jwt_required (jwt_refusal "/mpesa-transaction") jwt (fun user_id =>
    let amount := MpesaData.amount data in
    if negb (truthy_num amount)
    then ret (Error "Amount is required", 400)
    else
      transaction <- session_add
        (ITransaction (MpesaTransactionObj.mk None (Some user_id) amount None None None)) ;;
      _ <- commit ;;
      b <- to_dict transaction ;;
      ret (b, 201)).

(** [UserOrders.get], app.py lines 241-246 *)
Definition UserOrders_get (jwt : option Z) : M Response :=
  jwt_required (jwt_refusal "/user/orders") jwt (fun user_id =>
    orders <- query (fun d => Orders_by_user d user_id) ;;
    _ <- serialized_list (map OOrder orders) ;;
    ret (OrderList orders, 200)).

(** [UserBorrowings.get], app.py lines 249-254 *)
Definition UserBorrowings_get (jwt : option Z) : M Response :=
  jwt_required (jwt_refusal "/user/borrowings") jwt (fun user_id =>
    borrowings <- query (fun d => Borrowings_by_user d user_id) ;;
    _ <- serialized_list (map OBorrowing borrowings) ;;
    ret (BorrowingList borrowings, 200)).

(** [AdminUserList.get], app.py lines 257-263 *)
Definition AdminUserList_get (jwt : option Z) : M Response :=
  jwt_required (jwt_refusal "/admin/users") jwt (fun _ =>
    a <- is_admin ;;
    if negb (truthy_bool a)
    then ret (Error "Admin privileges required", 403)
    else
      users <- query users ;;
      _ <- serialized_list (map OUser users) ;;
      ret (UserList users, 200)).

(** [AdminTransactionList.get], app.py lines 266-272 *)
Definition AdminTransactionList_get (jwt : option Z) : M Response :=
  jwt_required (jwt_refusal "/admin/transactions") jwt (fun _ =>
    a <- is_admin ;;
    if negb (truthy_bool a)
    then ret (Error "Admin privileges required", 403)
    else
      transactions <- query mpesa_transactions ;;
      _ <- serialized_list (map OTransaction transactions) ;;
      ret (TransactionList transactions, 200)).

(** [AdminBorrowingList.get], app.py lines 275-281 *)
Definition AdminBorrowingList_get (jwt : option Z) : M Response :=
  jwt_required (jwt_refusal "/admin/borrowings") jwt (fun _ =>
    a <- is_admin ;;
    if negb (truthy_bool a)
    then ret (Error "Admin privileges required", 403)
    else
      borrowings <- query borrowings ;;
      _ <- serialized_list (map OBorrowing borrowings) ;;
      ret (BorrowingList borrowings, 200)).

(** [AdminLogout.post], app.py lines 284-287 *)
Definition AdminLogout_post : M Response :=
  _ <- session_pop ;;
  ret (Message "Logged out successfully", 200).

(** [b2c_transact], [c2b_transact], [simulate_stk_push]: the reply of the
    payment gateway is passed on. *)
Definition transact (reply : string) : M Response := ret (Json reply, 200).

(** [callback_url], app.py lines 344-352; [result_code] is
    [json_data["Body"]["stkCallback"]["ResultCode"]] when the path
    exists. *)
Definition callback_url (result_code : option Z) (json_data : string) : M Response :=
  match result_code with
  | None => raise (KeyError "ResultCode")
  | Some _ => ret (Json json_data, 200)
  end.

(** ** The public operations *)

Inductive Request : Type :=
| POST_register (salt : string) (data : RegisterData.t)
| POST_login (data : LoginData.t)
| GET_cart (jwt : option Z)
| POST_cart (jwt : option Z) (data : CartData.t)
| POST_mpesa_transaction (jwt : option Z) (data : MpesaData.t)
| GET_user_orders (jwt : option Z)
| GET_user_borrowings (jwt : option Z)
| GET_admin_users (jwt : option Z)
| GET_admin_transactions (jwt : option Z)
| GET_admin_borrowings (jwt : option Z)
| POST_admin_logout
| GET_admin_check (jwt : option Z)
| POST_transact (reply : string)
| POST_callback_url (result_code : option Z) (json_data : string).

Definition route (req : Request) : M Response :=
  match req with
  | POST_register salt data => Register_post salt data
  | POST_login data => Login_post data
  | GET_cart jwt => CartResource_get jwt
  | POST_cart jwt data => CartResource_post jwt data
  | POST_mpesa_transaction jwt data => MpesaTransactionResource_post jwt data
  | GET_user_orders jwt => UserOrders_get jwt
  | GET_user_borrowings jwt => UserBorrowings_get jwt
  | GET_admin_users jwt => AdminUserList_get jwt
  | GET_admin_transactions jwt => AdminTransactionList_get jwt
  | GET_admin_borrowings jwt => AdminBorrowingList_get jwt
  | POST_admin_logout => AdminLogout_post
  | GET_admin_check jwt => admin_check jwt
  | POST_transact reply => transact reply
  | POST_callback_url result_code json_data => callback_url result_code json_data
  end.

(** What persists between two requests of a client: the database and the
    session cookie. *)
Record State : Type := mkState {
  database : Database;
  cookie : option Z
}.

(** One request: the handler runs in a fresh database session; what it
    committed stays, the rest is rolled back when the request ends.  An
    exception that leaves the handler is the result of the request. *)
Definition serve (st : State) (now : Z) (req : Request) : result Response * State :=
  let (r, w) := route req (mkWorld (database st) (database st) [] (cookie st) now) in
  (r, mkState (durable w) (session w)).

Fixpoint run (st : State) (reqs : list (Z * Request)) : State :=
  match reqs with
  | [] => st
  | (now, req) :: reqs' => run (snd (serve st now req)) reqs'
  end.

End Handlers.

End App.

Import App.

(** ** Auxiliary notions for the statements *)

(** The value of [is_admin()] in a state: it depends on the session
    cookie alone. *)
Definition session_is_admin (st : State) : option bool :=
  if negb (truthy_int (cookie st))
  then Some false
  else match User_get (database st) (cookie st) with
       | Some u => User.is_admin u
       | None => Some false
       end.

(** A request that needs a token and has none. *)
Definition unauthenticated (req : Request) : bool :=
  match req with
  | GET_cart None | POST_cart None _ | POST_mpesa_transaction None _
  | GET_user_orders None | GET_user_borrowings None
  | GET_admin_users None | GET_admin_transactions None | GET_admin_borrowings None
  | GET_admin_check None => true
  | _ => false
  end.

(** The row [Register.post] stores for a new user: [is_admin] is not
    given by the constructor and takes the column default. *)
Definition registered (d : Database) (name email pw_hash : string) : User.t :=
  User.mk (next_id (map User.id (users d))) name email pw_hash (Some false).

(** The attributes of an instance that was loaded from a row. *)
Definition UserObj_of_row (u : User.t) : UserObj.t :=
  UserObj.mk (Some (User.id u)) (Some (User.name u)) (Some (User.email u))
             (Some (User.password_hash u)) (User.is_admin u).

(** ** The seeded database of [seed.py]

    [h] is the hash the script stores for each of its five users and [now]
    the time at which it runs; dates are in seconds. *)

Definition day : Z := 86400.

Definition seed (h : string) (now : Z) : Database :=
  mkDatabase
    [ User.mk 1 "Alice" "alice@example.com" h (Some false);
      User.mk 2 "Bob" "bob@example.com" h (Some false);
      User.mk 3 "Charlie" "charlie@example.com" h (Some false);
      User.mk 4 "David" "david@example.com" h (Some false);
      User.mk 5 "Eve" "eve@example.com" h (Some false) ]
    [ Category.mk 1 "Fiction"; Category.mk 2 "Non-fiction"; Category.mk 3 "Science";
      Category.mk 4 "Biography"; Category.mk 5 "Technology" ]
    [ Book.mk 1 "The Great Gatsby" "F. Scott Fitzgerald" (1099 # 100) None (Some 5) (Some 1) (Some true);
      Book.mk 2 "1984" "George Orwell" (899 # 100) None (Some 10) (Some 1) (Some true);
      Book.mk 3 "Sapiens" "Yuval Noah Harari" (1599 # 100) None (Some 7) (Some 2) (Some true);
      Book.mk 4 "Educated" "Tara Westover" (1299 # 100) None (Some 3) (Some 4) (Some true);
      Book.mk 5 "Clean Code" "Robert C. Martin" (2599 # 100) None (Some 8) (Some 5) (Some true) ]
    [ Order.mk 1 now "Pending" (Some 1);
      Order.mk 2 (now - day) "Shipped" (Some 2);
      Order.mk 3 (now - 2 * day) "Delivered" (Some 3);
      Order.mk 4 (now - 3 * day) "Cancelled" (Some 4);
      Order.mk 5 (now - 4 * day) "Pending" (Some 5) ]
    []
    [ Borrowing.mk 1 now (now + 7 * day) None 1 2;
      Borrowing.mk 2 (now - day) (now + 7 * day) None 2 3;
      Borrowing.mk 3 (now - 2 * day) (now + 7 * day) None 3 1;
      Borrowing.mk 4 (now - 3 * day) (now + 7 * day) None 4 4;
      Borrowing.mk 5 (now - 4 * day) (now + 7 * day) None 5 5 ]
    [ Cart.mk 1 1; Cart.mk 2 2; Cart.mk 3 3; Cart.mk 4 4; Cart.mk 5 5 ]
    [ CartItem.mk 1 1 1 2; CartItem.mk 2 2 3 1; CartItem.mk 3 3 2 4;
      CartItem.mk 4 4 4 1; CartItem.mk 5 5 5 3 ]
    [ MpesaTransaction.mk 1 1 (100 # 1) now "123456" "Completed";
      MpesaTransaction.mk 2 2 (200 # 1) now "654321" "Pending";
      MpesaTransaction.mk 3 3 (300 # 1) now "789123" "Failed";
      MpesaTransaction.mk 4 4 (150 # 1) now "321789" "Completed";
      MpesaTransaction.mk 5 5 (50 # 1) now "987654" "Pending" ].

(** The way [to_dict] takes through the seeded rows: from a borrowing
    to its book, from the book to the cart items that hold it, from a cart
    item to its cart, from the cart to its user and from the user to the
    borrowings of the user, each object with the rules that reach it
    there. *)
Definition lending_cycle (d : Database) : list (Schema * Obj) :=
  map (fun b => ([["user"%string]], OBorrowing b)) (borrowings d) ++
  map (fun b => ([["borrowings"%string]], OBook b)) (books d) ++
  map (fun i => ([["book"%string]], OCartItem i)) (cart_items d) ++
  map (fun c => ([["items"%string]], OCart c)) (carts d) ++
  map (fun u => ([["cart"%string]], OUser u)) (users d).

(** A stand-in for the two functions of [flask_bcrypt], to run the
    handlers on examples: the hash is the salt followed by the reversed
    password, behind the prefix of the bcrypt format. *)
Module Demo.

Fixpoint rev_string (s : string) : string :=
  match s with
  | EmptyString => EmptyString
  | String c s' => (rev_string s' ++ String c EmptyString)%string
  end.

Definition generate_password_hash (salt password : string) : string :=
  ("$2b$12$" ++ salt ++ "$" ++ rev_string password)%string.

Fixpoint ends_with (suffix s : string) : bool :=
  String.eqb s suffix ||
  match s with
  | EmptyString => false
  | String _ s' => ends_with suffix s'
  end.

Definition check_password_hash (pw_hash password : string) : bool :=
  ends_with ("$" ++ rev_string password)%string pw_hash.

(** Deep enough for every object that is not on a cycle. *)
Definition recursion_limit : nat := 100.

(** Without a token: the routes of the [Api] let the exception of the
    extension through; [/admin_check], a plain route, answers 401. *)
Definition jwt_refusal (rule : string) : Refusal :=
  if String.eqb rule "/admin_check"
  then Refused "Missing Authorization Header" 401
  else Unhandled (JWTError "Missing Authorization Header").

Definition serve :=
  serve generate_password_hash check_password_hash recursion_limit jwt_refusal.
Definition run :=
  run generate_password_hash check_password_hash recursion_limit jwt_refusal.

Definition hashed : string := generate_password_hash "salt" "password".

End Demo.

(** States and requests for the examples. *)
Module Scenario.

Import Demo.

(** The seeded database, before any request. *)
Definition st0 : State := mkState (seed hashed 0) None.

Definition frank : RegisterData.t :=
  RegisterData.mk (Some "Frank"%string) (Some "frank@example.com"%string)
                  (Some "password"%string).

(** After Frank has registered: he is user 6 and has no cart. *)
Definition st1 : State := run st0 [(1, POST_register "salt" frank)].

Definition gatsby : Book.t :=
  Book.mk 1 "The Great Gatsby" "F. Scott Fitzgerald" (1099 # 100) None (Some 5) (Some 1)
          (Some true).

(** The seeded database with Alice promoted to admin and two association
    rows. *)
Definition st_admin : State :=
  mkState
    (set_order_books
       (set_users (seed hashed 0)
          [ User.mk 1 "Alice" "alice@example.com" hashed (Some true);
            User.mk 2 "Bob" "bob@example.com" hashed (Some false);
            User.mk 3 "Charlie" "charlie@example.com" hashed (Some false);
            User.mk 4 "David" "david@example.com" hashed (Some false);
            User.mk 5 "Eve" "eve@example.com" hashed (Some false) ])
       [ OrderBook.mk 1 1 2; OrderBook.mk 2 3 1 ])
    None.

(** A database with one user, who is admin, and nothing else; the
    session names that user. *)
Definition st_root : State :=
  mkState
    (mkDatabase [User.mk 1 "Root" "root@example.com" hashed (Some true)]
                [] [] [] [] [] [] [] [])
    (Some 1).

Definition requests : list (Z * Request) :=
  [ (1, POST_register "salt" frank);
    (2, POST_login (LoginData.mk (Some "frank@example.com"%string)
                                 (Some "password"%string)));
    (3, POST_cart (Some 6) (CartData.mk (Some 1) (Some 2)));
    (4, POST_mpesa_transaction (Some 6) (MpesaData.mk (Some (100 # 1))));
    (5, GET_admin_users (Some 6));
    (6, POST_admin_logout) ].

End Scenario.

(** ** Properties of the store *)

(** Every row of [order_books] has a quantity of at least 1. *)
Definition quantities_ok (d : Database) : Prop :=
  Forall (fun r => 1 <= OrderBook.quantity r) (order_books d).

Definition transaction_statuses : list string := ["Pending"; "Completed"; "Failed"]%string.

(** Positive amount, status among the three. *)
Definition transaction_ok (t : MpesaTransaction.t) : Prop :=
  (0 < MpesaTransaction.amount t)%Q /\ In (MpesaTransaction.status t) transaction_statuses.

Definition transactions_ok (d : Database) : Prop :=
  Forall transaction_ok (mpesa_transactions d).

(** No user row carries the admin flag. *)
Definition no_admin (d : Database) : Prop :=
  Forall (fun u => User.is_admin u <> Some true) (users d).

(** Every row that names a user names a stored one: the foreign keys
    to [users.id] resolve. *)
Definition user_keys_ok (d : Database) : Prop :=
  Forall (fun o => match Order.user_id o with
                   | Some k => In k (map User.id (users d))
                   | None => True
                   end) (orders d) /\
  Forall (fun b => In (Borrowing.user_id b) (map User.id (users d))) (borrowings d) /\
  Forall (fun c => In (Cart.user_id c) (map User.id (users d))) (carts d) /\
  Forall (fun t => In (MpesaTransaction.user_id t) (map User.id (users d)))
         (mpesa_transactions d).

(** ** [Order]: the validator and the constructor (models.py lines 90-96) *)

Definition VALID_STATUSES : list string :=
  ["Pending"; "Shipped"; "Delivered"; "Cancelled"]%string.

(** [Order.validate_status], run whenever [status] is assigned. *)
Definition validate_status (status : string) : result string :=
  if existsb (String.eqb status) VALID_STATUSES
  then Ok status
  else Raise (ValueError "Invalid order status").

(** [Order(order_date=.., status=.., user_id=..)]; [None] is a keyword that
    is not given, for which nothing is assigned and no validator runs. *)
Definition Order_new (order_date : option Z) (status : option string) (user_id : option Z)
  : result OrderObj.t :=
  match status with
  | None => Ok (OrderObj.mk None order_date None user_id [])
  | Some s =>
      v <~ validate_status s ;;
      Ok (OrderObj.mk None order_date (Some v) user_id [])
  end.

(** ** Further properties of the store *)

(** The shape of an address: local part, [@], label, dot, rest. *)
Definition email_shape (s : string) : Prop :=
  exists l d t,
    s = (l ++ "@" ++ d ++ "." ++ t)%string /\
    Re.word local_char l /\ Re.word domain_char d /\ Re.word suffix_char t.

Definition newline : string := String "010"%char EmptyString.

(** The primary key of a row of [order_books]. *)
Definition order_book_key (r : OrderBook.t) : Z * Z :=
  (OrderBook.order_id r, OrderBook.book_id r).

(** The primary keys and the columns declared [unique=True] hold no value
    twice. *)
Definition keys_ok (d : Database) : Prop :=
  NoDup (map User.id (users d)) /\
  NoDup (map User.email (users d)) /\
  NoDup (map Cart.id (carts d)) /\
  NoDup (map Order.id (orders d)) /\
  NoDup (map order_book_key (order_books d)) /\
  NoDup (map MpesaTransaction.id (mpesa_transactions d)) /\
  NoDup (map MpesaTransaction.mpesa_receipt (mpesa_transactions d)).

(** Every order has one of the four statuses. *)
Definition orders_ok (d : Database) : Prop :=
  Forall (fun o => In (Order.status o) VALID_STATUSES) (orders d).

(** Every stored address passes the validator. *)
Definition emails_ok (d : Database) : Prop :=
  Forall (fun u => Re.match_anchored valid_email (User.email u) = true) (users d).

(** Every instance of the list has its primary key. *)
Definition persistent (i : Instance) : bool :=
  match i with
  | IUser o => match UserObj.id o with Some _ => true | None => false end
  | ICart o => match CartObj.id o with Some _ => true | None => false end
  | IOrder o => match OrderObj.id o with Some _ => true | None => false end
  | ITransaction o => match MpesaTransactionObj.id o with Some _ => true | None => false end
  end.

(** The body of the answer to Frank's registration. *)
Definition frank_body : Body :=
  Dict (IUser (UserObj.mk (Some 6) (Some "Frank"%string) (Some "frank@example.com"%string)
                          (Some Demo.hashed) (Some false))).

(** * Results *)

(** ** The matcher decides the language of the expression *)

Lemma append_nil_r (s : string) : (s ++ "")%string = s.
Proof.
  induction s as [|c s IH]; simpl; [reflexivity|]. rewrite IH. reflexivity.
Qed.

Lemma append_eq_nil (s1 s2 : string) :
  (s1 ++ s2)%string = EmptyString -> s1 = EmptyString /\ s2 = EmptyString.
Proof.
  destruct s1; simpl; [auto|discriminate].
Qed.

Lemma nullable_matches (r : Re.regex) :
  Re.nullable r = true <-> Re.matches r EmptyString.
Proof.
  split.
  - induction r as [| |p|r1 IH1 r2 IH2|r1 IH1 r2 IH2|r1 IH1]; simpl; intros H;
      try discriminate.
    + constructor.
    + apply andb_true_iff in H. destruct H as [H1 H2].
      change EmptyString with (EmptyString ++ EmptyString)%string.
      constructor; auto.
    + apply orb_true_iff in H. destruct H as [H|H];
        [apply Re.matches_alt_l|apply Re.matches_alt_r]; auto.
    + constructor.
  - intros H. remember EmptyString as s eqn:E.
    induction H as [|p c Hp|r1 r2 s1 s2 H1 IH1 H2 IH2|r1 r2 s H IH|r1 r2 s H IH
                   |r|r s1 s2 H1 IH1 H2 IH2]; simpl; try reflexivity.
    + discriminate.
    + apply append_eq_nil in E. destruct E as [E1 E2].
      rewrite IH1, IH2 by assumption. reflexivity.
    + rewrite IH by assumption. reflexivity.
    + rewrite IH by assumption. apply orb_true_r.
Qed.

Lemma deriv_sound (c : ascii) (r : Re.regex) :
  forall s, Re.matches (Re.deriv c r) s -> Re.matches r (String c s).
Proof.
  induction r as [| |p|r1 IH1 r2 IH2|r1 IH1 r2 IH2|r1 IH1]; simpl; intros s H.
  - inversion H.
  - inversion H.
  - destruct (p c) eqn:Hp; inversion H; subst. constructor. exact Hp.
  - assert (C : forall t, Re.matches (Re.Cat (Re.deriv c r1) r2) t ->
                          Re.matches (Re.Cat r1 r2) (String c t)).
    { intros t Ht. inversion Ht; subst.
      change (String c (s1 ++ s2)) with (String c s1 ++ s2)%string.
      constructor; auto. }
    destruct (Re.nullable r1) eqn:N; [|auto].
    inversion H; subst; [auto|].
    change (String c s) with (EmptyString ++ String c s)%string.
    constructor; [apply nullable_matches; exact N|auto].
  - inversion H; subst; [apply Re.matches_alt_l|apply Re.matches_alt_r]; auto.
  - inversion H; subst.
    change (String c (s1 ++ s2)) with (String c s1 ++ s2)%string.
    constructor; auto.
Qed.

Lemma deriv_complete (r : Re.regex) (t : string) :
  Re.matches r t ->
  forall c s, t = String c s -> Re.matches (Re.deriv c r) s.
Proof.
  induction 1 as [|p a Hp|r1 r2 s1 s2 H1 IH1 H2 IH2|r1 r2 s0 H IH|r1 r2 s0 H IH
                 |r|r s1 s2 H1 IH1 H2 IH2]; intros c s E; simpl.
  - discriminate.
  - inversion E; subst. rewrite Hp. constructor.
  - destruct s1 as [|a s1']; simpl in E.
    + apply nullable_matches in H1. rewrite H1.
      apply Re.matches_alt_r. auto.
    + inversion E; subst.
      assert (C : Re.matches (Re.Cat (Re.deriv c r1) r2) (s1' ++ s2))
        by (constructor; auto).
      destruct (Re.nullable r1); [apply Re.matches_alt_l|]; exact C.
  - apply Re.matches_alt_l. auto.
  - apply Re.matches_alt_r. auto.
  - discriminate.
  - destruct s1 as [|a s1']; simpl in E.
    + apply (IH2 c s E).
    + inversion E; subst. constructor; auto.
Qed.

Lemma fullmatch_matches (s : string) :
  forall r, Re.fullmatch r s = true <-> Re.matches r s.
Proof.
  induction s as [|c s IH]; intros r; simpl.
  - apply nullable_matches.
  - rewrite IH. split.
    + apply deriv_sound.
    + intros H. apply (deriv_complete r _ H). reflexivity.
Qed.

Lemma matches_cat (r1 r2 : Re.regex) (s : string) :
  Re.matches (Re.Cat r1 r2) s <->
  exists s1 s2, s = (s1 ++ s2)%string /\ Re.matches r1 s1 /\ Re.matches r2 s2.
Proof.
  split.
  - intros H. inversion H; subst. eauto.
  - intros (s1 & s2 & -> & H1 & H2). constructor; assumption.
Qed.

Lemma matches_char (a : ascii) (s : string) :
  Re.matches (Re.Class (Ascii.eqb a)) s <-> s = String a EmptyString.
Proof.
  split.
  - intros H. inversion H; subst.
    match goal with E : Ascii.eqb _ _ = true |- _ => apply Ascii.eqb_eq in E; subst end.
    reflexivity.
  - intros ->. constructor. apply Ascii.eqb_refl.
Qed.

Lemma matches_star_class (p : ascii -> bool) (s : string) :
  Re.matches (Re.Star (Re.Class p)) s <-> Re.all_chars p s = true.
Proof.
  split.
  - intros H. remember (Re.Star (Re.Class p)) as r eqn:E.
    induction H as [|q c Hq|r1 r2 s1 s2 H1 IH1 H2 IH2|r1 r2 s0 H IH|r1 r2 s0 H IH
                   |r|r s1 s2 H1 IH1 H2 IH2]; try discriminate.
    + reflexivity.
    + inversion E; subst. inversion H1; subst. simpl.
      match goal with E : p _ = true |- _ => rewrite E end.
      apply IH2. reflexivity.
  - induction s as [|c s IH]; simpl; intros H.
    + constructor.
    + apply andb_true_iff in H. destruct H as [Hc Hs].
      change (String c s) with (String c EmptyString ++ s)%string.
      constructor; [constructor; exact Hc|auto].
Qed.

Lemma matches_plus_class (p : ascii -> bool) (s : string) :
  Re.matches (Re.Plus (Re.Class p)) s <-> Re.word p s.
Proof.
  unfold Re.Plus, Re.word. rewrite matches_cat. split.
  - intros (s1 & s2 & -> & H1 & H2). inversion H1; subst. simpl.
    apply matches_star_class in H2.
    match goal with E : p _ = true |- _ => rewrite E end.
    split; [discriminate|exact H2].
  - intros [Hn Ha]. destruct s as [|c s]; [congruence|].
    simpl in Ha. apply andb_true_iff in Ha. destruct Ha as [Hc Hs].
    exists (String c EmptyString), s. split; [reflexivity|].
    split; [constructor; exact Hc|apply matches_star_class; exact Hs].
Qed.

(** What the pattern of [User.validate_email] accepts: a local part, [@],
    a label without dot, a dot, and a rest that may contain dots. *)
Lemma valid_email_fullmatch (s : string) :
  Re.fullmatch valid_email s = true <->
  exists l d t,
    s = (l ++ "@" ++ d ++ "." ++ t)%string /\
    Re.word local_char l /\ Re.word domain_char d /\ Re.word suffix_char t.
Proof.
  rewrite fullmatch_matches. unfold valid_email.
  rewrite matches_cat. split.
  - intros (l & s1 & -> & Hl & H1).
    apply matches_cat in H1. destruct H1 as (a & s2 & -> & Ha & H2).
    apply matches_cat in H2. destruct H2 as (d & s3 & -> & Hd & H3).
    apply matches_cat in H3. destruct H3 as (b & t & -> & Hb & Ht).
    apply matches_char in Ha. apply matches_char in Hb. subst a b.
    exists l, d, t. rewrite <- !matches_plus_class. auto.
  - intros (l & d & t & -> & Hl & Hd & Ht).
    rewrite <- matches_plus_class in Hl, Hd, Ht.
    exists l, ("@" ++ d ++ "." ++ t)%string. split; [reflexivity|]. split; [exact Hl|].
    apply matches_cat. exists "@"%string, (d ++ "." ++ t)%string.
    split; [reflexivity|]. split; [apply matches_char; reflexivity|].
    apply matches_cat. exists d, ("." ++ t)%string.
    split; [reflexivity|]. split; [exact Hd|].
    apply matches_cat. exists "."%string, t.
    split; [reflexivity|]. split; [apply matches_char; reflexivity|exact Ht].
Qed.

(** ** What each handler does, case by case *)

(** ** The serialiser: what stops it and what does not *)

Lemma map_result_error {A B : Type} (f : A -> result B) (l : list A) (e e0 : Exn) :
  (forall a e', In a l -> f a = Raise e' -> e' = e0) ->
  map_result f l = Raise e -> e = e0.
Proof.
  induction l as [|a l IH]; simpl; intros H; [discriminate|].
  destruct (f a) as [b|e'] eqn:E; simpl.
  - destruct (map_result f l) as [bs|e''] eqn:E'; simpl; [discriminate|].
    intros X. inversion X. subst.
    apply IH; [intros x e' I; apply H; right; exact I|reflexivity].
  - intros X. inversion X. subst. apply (H a); [left; reflexivity|exact E].
Qed.

Lemma map_result_raises {A B : Type} (f : A -> result B) (l : list A) (e : Exn) (a : A) :
  (forall x e', In x l -> f x = Raise e' -> e' = e) ->
  In a l -> f a = Raise e ->
  map_result f l = Raise e.
Proof.
  intros H I R.
  destruct (map_result f l) as [bs|e'] eqn:E.
  - exfalso. revert bs E. induction l as [|x l IH]; simpl in *; [contradiction|].
    intros bs. destruct (f x) as [b|] eqn:Ex; simpl; [|discriminate].
    destruct (map_result f l) as [bs'|] eqn:E'; simpl; [|discriminate].
    intros _. destruct I as [->|I]; [congruence|].
    eapply IH; eauto.
  - f_equal. eapply map_result_error; eauto.
Qed.

Lemma map_result_ok {A B : Type} (f : A -> result B) (g : A -> B) (l : list A) :
  (forall a, In a l -> f a = Ok (g a)) -> map_result f l = Ok (map g l).
Proof.
  induction l as [|a l IH]; simpl; intros H; [reflexivity|].
  rewrite (H a) by auto. simpl. rewrite IH by auto. reflexivity.
Qed.

Lemma serialize_attr_error (f : Schema -> Obj -> result json) (s : Schema)
      (ka : string * Attr) (e : Exn) :
  (forall s' o e', f s' o = Raise e' -> e' = RecursionError) ->
  serialize_attr f s ka = Raise e -> e = RecursionError.
Proof.
  intros H. unfold serialize_attr.
  destruct (snd ka) as [j|[c|]|l]; try discriminate.
  - destruct (f _ c) eqn:E; simpl; [discriminate|].
    intros X. inversion X. subst. eauto.
  - destruct (map_result _ l) eqn:E; simpl; [discriminate|].
    intros X. inversion X. subst.
    eapply map_result_error; [|exact E]. eauto.
Qed.

(** [to_dict] raises nothing but [RecursionError]. *)
Lemma serialize_error (depth : nat) (d : Database) (s : Schema) (o : Obj) (e : Exn) :
  serialize depth d s o = Raise e -> e = RecursionError.
Proof.
  revert s o e. induction depth as [|n IH]; intros s o e; simpl.
  - intros X. inversion X. reflexivity.
  - destruct (map_result _ _) eqn:E; simpl; [discriminate|].
    intros X. inversion X. subst.
    eapply map_result_error; [|exact E].
    intros a e' _. apply serialize_attr_error. exact IH.
Qed.

(** An object whose dictionary needs the dictionary of an object that is
    not serialised is not serialised either. *)
Lemma serialize_child (n : nat) (d : Database) (s s' : Schema) (o c : Obj) :
  In (s', c) (children d s o) ->
  serialize n d s' c = Raise RecursionError ->
  serialize (S n) d s o = Raise RecursionError.
Proof.
  unfold children. rewrite in_flat_map. intros (ka & I & C) R. simpl.
  rewrite (map_result_raises _ _ RecursionError ka); [reflexivity| |exact I|].
  - intros x e' _. apply serialize_attr_error. apply serialize_error.
  - unfold serialize_attr. destruct (snd ka) as [j|[c0|]|l]; try contradiction.
    + destruct C as [C|[]]. inversion C. subst. rewrite R. reflexivity.
    + apply in_map_iff in C. destruct C as (x & C & Ix). inversion C. subst.
      rewrite (map_result_raises _ _ RecursionError c); auto.
      intros ? ? _. apply serialize_error.
Qed.

(** A set of objects, each of which has an object of the set among those
    it serialises, is not serialised at any depth: the recursion does not
    end by itself. *)
Lemma serialize_cycle (d : Database) (P : Schema -> Obj -> Prop) :
  (forall s o, P s o -> exists s' c, In (s', c) (children d s o) /\ P s' c) ->
  forall depth s o, P s o -> serialize depth d s o = Raise RecursionError.
Proof.
  intros H. induction depth as [|n IH]; intros s o Hp; [reflexivity|].
  destruct (H s o Hp) as (s' & c & I & Hc).
  eapply serialize_child; eauto.
Qed.

Lemma serialize_descendant (d : Database) (s s' : Schema) (o c : Obj) :
  In (s', c) (children d s o) ->
  (forall depth, serialize depth d s' c = Raise RecursionError) ->
  forall depth, serialize depth d s o = Raise RecursionError.
Proof.
  intros I H [|n]; [reflexivity|]. eapply serialize_child; eauto.
Qed.

(** An object without related objects is serialised at any depth but 0. *)
Lemma serialize_leaf (n : nat) (d : Database) (s : Schema) (o : Obj) :
  children d s o = [] -> exists j, serialize (S n) d s o = Ok j.
Proof.
  unfold children. simpl. generalize (serializable d (s ++ serialize_rules o) o).
  intros l H.
  assert (E : exists fields, map_result (serialize_attr (serialize n d) (s ++ serialize_rules o)) l
                             = Ok fields).
  { induction l as [|ka l IH]; simpl in *; [eauto|].
    apply app_eq_nil in H. destruct H as [H1 H2].
    destruct (IH H2) as (fs & E). rewrite E.
    unfold serialize_attr. destruct (snd ka) as [j|[c|]|[|c l']]; simpl; eauto; discriminate. }
  destruct E as (fields & E). rewrite E. simpl. eauto.
Qed.

Lemma after_to_dict_ok (limit : nat) (d : Database) (l : list Obj) (r r' : Response) :
  after_to_dict limit d l r = Ok r' -> r' = r.
Proof.
  unfold after_to_dict. destruct (map_result _ _); simpl; [|discriminate].
  intros E. inversion E. reflexivity.
Qed.

Lemma after_to_dict_error (limit : nat) (d : Database) (l : list Obj) (r : Response)
      (e : Exn) :
  after_to_dict limit d l r = Raise e -> e = RecursionError.
Proof.
  unfold after_to_dict. destruct (map_result _ _) eqn:E; simpl; [discriminate|].
  intros X. inversion X. subst.
  eapply map_result_error; [|exact E]. intros a e' _. apply serialize_error.
Qed.

Lemma after_to_dict_raises (limit : nat) (d : Database) (l : list Obj) (r : Response)
      (o : Obj) :
  In o l -> serialize limit d [] o = Raise RecursionError ->
  after_to_dict limit d l r = Raise RecursionError.
Proof.
  intros I R. unfold after_to_dict.
  rewrite (map_result_raises _ _ RecursionError o); auto.
  intros ? ? _. apply serialize_error.
Qed.

(** ** The seeded rows lie on cycles *)

Ltac pick := (left; reflexivity) + (right; pick).

Ltac rows := cbv - [Z.add Z.sub Z.mul Z.opp day].

Lemma seed_cycle (h : string) (now : Z) (x : Schema * Obj) :
  In x (lending_cycle (seed h now)) ->
  exists y, In y (children (seed h now) (fst x) (snd x)) /\
            In y (lending_cycle (seed h now)).
Proof.
  intros I. cbv - [Z.add Z.sub Z.mul Z.opp day] in I.
  repeat (destruct I as [<-|I]; [(eexists; split; [rows; pick|]); solve [rows; pick]|]).
  contradiction.
Qed.

(** No object of the seeded database that lies on the way from a
    borrowing to its book and back is serialised, whatever the recursion
    limit. *)
Lemma seed_to_dict (h : string) (now : Z) (depth : nat) (s : Schema) (o : Obj) :
  In (s, o) (lending_cycle (seed h now)) ->
  serialize depth (seed h now) s o = Raise RecursionError.
Proof.
  apply (serialize_cycle (seed h now) (fun s o => In (s, o) (lending_cycle (seed h now)))).
  clear. intros s o I. destruct (seed_cycle h now (s, o) I) as ([s' c] & I1 & I2). eauto.
Qed.

(** Looks for a way from the object of the goal into the cycle, at most
    [n] objects long. *)
Ltac diverge n :=
  intros;
  first [ solve [apply seed_to_dict; rows; pick]
        | match n with
          | S ?m => solve [(eapply serialize_descendant; [rows; pick|]); diverge m]
          end ].

(** ** Keys *)

Lemma max_bound (ids : list Z) (x : Z) : In x ids -> x <= fold_right Z.max 0 ids.
Proof.
  induction ids as [|y ids IH]; simpl; [intros []|].
  intros [E|I]; [subst; lia|]. specialize (IH I). lia.
Qed.

Lemma next_id_fresh (ids : list Z) : ~ In (next_id ids) ids /\ 0 < next_id ids.
Proof.
  unfold next_id. split.
  - intros I. apply max_bound in I. lia.
  - assert (0 <= fold_right Z.max 0 ids) by (induction ids; simpl; lia). lia.
Qed.

Lemma find_new_key {A : Type} (key : A -> Z) (l : list A) (x : A) :
  ~ In (key x) (map key l) ->
  find (fun y => key y =? key x) (l ++ [x]) = Some x.
Proof.
  induction l as [|y l IH]; simpl; intros N.
  - rewrite Z.eqb_refl. reflexivity.
  - destruct (Z.eqb_spec (key y) (key x)) as [E|_]; [exfalso; auto|].
    apply IH. auto.
Qed.

(** The row of a new user is what the session reloads for it. *)
Lemma User_get_registered (d : Database) (n e h : string) :
  User_get (set_users d (users d ++ [registered d n e h]))
           (Some (next_id (map User.id (users d)))) = Some (registered d n e h).
Proof.
  simpl. apply (find_new_key User.id (users d) (registered d n e h)).
  apply next_id_fresh.
Qed.

Section Results.

Variable generate_password_hash : string -> string -> string.
Variable check_password_hash : string -> string -> bool.
Variable recursion_limit : nat.
Variable jwt_refusal : string -> Refusal.

Let serve :=
  App.serve generate_password_hash check_password_hash recursion_limit jwt_refusal.
Let run :=
  App.run generate_password_hash check_password_hash recursion_limit jwt_refusal.
Let CartResource_post := App.CartResource_post recursion_limit jwt_refusal.

Lemma find_none_existsb {A : Type} (f : A -> bool) (l : list A) :
  find f l = None -> existsb f l = false.
Proof.
  induction l as [|x l IH]; simpl; [reflexivity|].
  destruct (f x); [discriminate|exact IH].
Qed.

(** Unfolds the monad and the session around the database functions. *)
Ltac run_handler :=
  cbv [serve App.serve route jwt_required bind query flush commit ret raise lift
       session_add instance books_append order_id execute_order_books_insert
       to_dict serialized serialized_list session_get session_pop
       flush_instances update_nth nth_error List.length app
       durable current identity session clock database cookie
       AdminUserList_get AdminTransactionList_get AdminBorrowingList_get
       AdminLogout_post admin_check is_admin transact callback_url
       CartResource_get CartResource_post App.CartResource_post
       MpesaTransactionResource_post
       UserOrders_get UserBorrowings_get Register_post Login_post].

(** The book a [POST /cart] names, when it is stored, is found. *)
Lemma Book_query_get_found (d : Database) (id : option Z) (book : Book.t) :
  Book_get d id = Some book -> Book_query_get d id = Ok (Some book).
Proof. unfold Book_query_get. intros ->. reflexivity. Qed.


(** [POST /cart] of an authenticated caller. *)
Lemma serve_POST_cart (st : State) (now uid : Z) (data : CartData.t) :
  serve st now (POST_cart (Some uid) data) =
  (if negb (truthy_int (CartData.book_id data)) || negb (truthy_int (CartData.quantity data))
   then Ok (Error "Missing required fields", 400)
   else match Book_query_get (database st) (CartData.book_id data) with
        | Raise e => Raise e
        | Ok None => Ok (Error "Book not found", 404)
        | Ok (Some _) => Raise (IntegrityError (NotNull "order_books" "order_id"))
        end,
   st).
Proof.
  destruct st as [d c]. run_handler.
  destruct (negb (truthy_int (CartData.book_id data)) || negb (truthy_int (CartData.quantity data))).
  - reflexivity.
  - destruct (Book_query_get d (CartData.book_id data)) as [[book|]|e]; try reflexivity.
    destruct (Cart_by_user d uid); reflexivity.
Qed.

(** [POST /mpesa-transaction] of an authenticated caller. *)
Lemma serve_POST_mpesa_transaction (st : State) (now uid : Z) (data : MpesaData.t) :
  serve st now (POST_mpesa_transaction (Some uid) data) =
  (if negb (truthy_num (MpesaData.amount data))
   then Ok (Error "Amount is required", 400)
   else Raise (IntegrityError (NotNull "mpesa_transactions" "mpesa_receipt")),
   st).
Proof.
  destruct st as [d c]. run_handler.
  destruct (negb (truthy_num (MpesaData.amount data))) eqn:E; [reflexivity|].
  destruct (MpesaData.amount data); [reflexivity|discriminate].
Qed.

Lemma serve_GET_user_orders (st : State) (now uid : Z) :
  serve st now (GET_user_orders (Some uid)) =
  (after_to_dict recursion_limit (database st)
     (map OOrder (Orders_by_user (database st) uid))
     (OrderList (Orders_by_user (database st) uid), 200), st).
Proof.
  destruct st as [d c]. run_handler. unfold after_to_dict.
  destruct (map_result _ _); reflexivity.
Qed.

Lemma serve_GET_user_borrowings (st : State) (now uid : Z) :
  serve st now (GET_user_borrowings (Some uid)) =
  (after_to_dict recursion_limit (database st)
     (map OBorrowing (Borrowings_by_user (database st) uid))
     (BorrowingList (Borrowings_by_user (database st) uid), 200), st).
Proof.
  destruct st as [d c]. run_handler. unfold after_to_dict.
  destruct (map_result _ _); reflexivity.
Qed.

Lemma serve_GET_cart (st : State) (now uid : Z) :
  serve st now (GET_cart (Some uid)) =
  (match Cart_by_user (database st) uid with
   | Some c => after_to_dict recursion_limit (database st) [OCart c] (CartDict c, 200)
   | None => Ok (Error "No cart found for user", 404)
   end, st).
Proof.
  destruct st as [d c]. run_handler. unfold after_to_dict.
  destruct (Cart_by_user d uid); [|reflexivity]. simpl.
  destruct (serialize _ _ _ _); reflexivity.
Qed.

Lemma is_admin_value (d : Database) (c : option Z) (now : Z) :
  is_admin (mkWorld d d [] c now) =
  (Ok (session_is_admin (mkState d c)), mkWorld d d [] c now).
Proof.
  unfold session_is_admin. run_handler.
  destruct (negb (truthy_int c)); [reflexivity|].
  destruct (User_get d c); reflexivity.
Qed.

Lemma serve_GET_admin_users (st : State) (now : Z) (jwt : Z) :
  serve st now (GET_admin_users (Some jwt)) =
  (if negb (truthy_bool (session_is_admin st))
   then Ok (Error "Admin privileges required", 403)
   else after_to_dict recursion_limit (database st) (map OUser (users (database st)))
          (UserList (users (database st)), 200), st).
Proof.
  destruct st as [d c]. unfold session_is_admin, after_to_dict. run_handler.
  destruct (negb (truthy_int c)); [reflexivity|].
  destruct (User_get d c) as [u|]; [|reflexivity].
  destruct (negb (truthy_bool (User.is_admin u))); [reflexivity|].
  destruct (map_result _ _); reflexivity.
Qed.

Lemma serve_GET_admin_transactions (st : State) (now : Z) (jwt : Z) :
  serve st now (GET_admin_transactions (Some jwt)) =
  (if negb (truthy_bool (session_is_admin st))
   then Ok (Error "Admin privileges required", 403)
   else after_to_dict recursion_limit (database st)
          (map OTransaction (mpesa_transactions (database st)))
          (TransactionList (mpesa_transactions (database st)), 200), st).
Proof.
  destruct st as [d c]. unfold session_is_admin, after_to_dict. run_handler.
  destruct (negb (truthy_int c)); [reflexivity|].
  destruct (User_get d c) as [u|]; [|reflexivity].
  destruct (negb (truthy_bool (User.is_admin u))); [reflexivity|].
  destruct (map_result _ _); reflexivity.
Qed.

Lemma serve_GET_admin_borrowings (st : State) (now : Z) (jwt : Z) :
  serve st now (GET_admin_borrowings (Some jwt)) =
  (if negb (truthy_bool (session_is_admin st))
   then Ok (Error "Admin privileges required", 403)
   else after_to_dict recursion_limit (database st)
          (map OBorrowing (borrowings (database st)))
          (BorrowingList (borrowings (database st)), 200), st).
Proof.
  destruct st as [d c]. unfold session_is_admin, after_to_dict. run_handler.
  destruct (negb (truthy_int c)); [reflexivity|].
  destruct (User_get d c) as [u|]; [|reflexivity].
  destruct (negb (truthy_bool (User.is_admin u))); [reflexivity|].
  destruct (map_result _ _); reflexivity.
Qed.

Lemma serve_GET_admin_check (st : State) (now : Z) (jwt : Z) :
  serve st now (GET_admin_check (Some jwt)) =
  (match User_get (database st) (Some jwt) with
   | Some u =>
       if truthy_bool (User.is_admin u)
       then Ok (Message "User is an admin", 200)
       else Ok (Message "User is not an admin", 403)
   | None => Ok (Message "User is not an admin", 403)
   end, st).
Proof.
  destruct st as [d c]. run_handler.
  destruct (User_get d (Some jwt)) as [u|]; [|reflexivity].
  destruct (truthy_bool (User.is_admin u)); reflexivity.
Qed.

(** Without a token that verifies the handler does not run. *)
Lemma serve_unauthenticated (st : State) (now : Z) (req : Request) :
  unauthenticated req = true ->
  exists r, serve st now req = (refused r, st).
Proof.
  destruct st; destruct req as [| |j|j ?|j ?|j|j|j|j|j| |j| |]; try discriminate;
    destruct j; try discriminate; intros _; eexists; reflexivity.
Qed.

Lemma serve_unauthenticated_state (st : State) (now : Z) (req : Request) :
  unauthenticated req = true -> snd (serve st now req) = st.
Proof.
  intros H. destruct (serve_unauthenticated st now req H) as (r & ->). reflexivity.
Qed.

(** [POST /login], case by case. *)
Lemma serve_POST_login_result (st : State) (now : Z) (data : LoginData.t) :
  serve st now (POST_login data) =
  (match User_by_email (database st) (LoginData.email data) with
   | Some u =>
       match LoginData.password data with
       | None => Raise (TypeError "Unicode-objects must be encoded before hashing")
       | Some p =>
           if check_password_hash (User.password_hash u) p
           then after_to_dict recursion_limit (database st) [OUser u]
                  (LoginDict "Login successful" (User.id u) u, 200)
           else Ok (Error "Invalid credentials", 401)
       end
   | None => Ok (Error "Invalid credentials", 401)
   end, st).
Proof.
  destruct st as [d c]. run_handler. unfold after_to_dict.
  destruct (User_by_email d (LoginData.email data)); [|reflexivity].
  destruct (LoginData.password data); [|reflexivity].
  destruct (check_password_hash _ _); [|reflexivity]. simpl.
  destruct (serialize _ _ _ _); reflexivity.
Qed.

Lemma serve_POST_login (st : State) (now : Z) (data : LoginData.t) :
  snd (serve st now (POST_login data)) = st.
Proof. rewrite serve_POST_login_result. reflexivity. Qed.

(** [POST /register], case by case. *)
Lemma register_missing (st : State) (now : Z) (salt : string) (data : RegisterData.t) :
  truthy_str (RegisterData.name data) = false \/
  truthy_str (RegisterData.email data) = false \/
  truthy_str (RegisterData.password data) = false ->
  serve st now (POST_register salt data) =
  (Ok (Error "Missing required fields", 400), st).
Proof.
  intros H. destruct st as [d c]. run_handler.
  destruct H as [H|[H|H]]; rewrite H; simpl;
    rewrite ?orb_true_r; reflexivity.
Qed.

Lemma register_conflict (st : State) (now : Z) (salt : string) (data : RegisterData.t)
      (u : User.t) :
  truthy_str (RegisterData.name data) = true ->
  truthy_str (RegisterData.email data) = true ->
  truthy_str (RegisterData.password data) = true ->
  User_by_email (database st) (RegisterData.email data) = Some u ->
  serve st now (POST_register salt data) =
  (Ok (Error "Email already exists", 400), st).
Proof.
  intros Hn He Hp Hu. destruct st as [d c]. run_handler.
  rewrite Hn, He, Hp. simpl in *. rewrite Hu. reflexivity.
Qed.

Lemma register_invalid (st : State) (now : Z) (salt : string) (data : RegisterData.t)
      (e : string) :
  truthy_str (RegisterData.name data) = true ->
  truthy_str (RegisterData.password data) = true ->
  RegisterData.email data = Some e ->
  e <> EmptyString ->
  User_by_email (database st) (Some e) = None ->
  Re.match_anchored valid_email e = false ->
  serve st now (POST_register salt data) =
  (Raise (ValueError "Invalid email"), st).
Proof.
  intros Hn Hp He Hne Hu Hm. destruct st as [d c]. run_handler.
  rewrite Hn, Hp, He. simpl in *.
  destruct (String.eqb_spec e EmptyString) as [->|_]; [congruence|]. simpl.
  rewrite Hu. unfold User_new, validate_email. rewrite Hm. reflexivity.
Qed.

(** The registration that goes through: the user is committed, and then
    serialised for the answer. *)
Lemma register_created (st : State) (now : Z) (salt : string) (data : RegisterData.t)
      (n e p : string) :
  RegisterData.name data = Some n -> n <> EmptyString ->
  RegisterData.email data = Some e -> e <> EmptyString ->
  RegisterData.password data = Some p -> p <> EmptyString ->
  User_by_email (database st) (Some e) = None ->
  Re.match_anchored valid_email e = true ->
  let u := registered (database st) n e (generate_password_hash salt p) in
  let d' := set_users (database st) (users (database st) ++ [u]) in
  serve st now (POST_register salt data) =
  (after_to_dict recursion_limit d' [OUser u] (Dict (IUser (UserObj_of_row u)), 201),
   mkState d' (cookie st)).
Proof.
  intros Hn Hnn He Hne Hp Hpn Hu Hm u d'. subst u d'. destruct st as [d c]. run_handler.
  rewrite Hn, He, Hp. simpl in *.
  destruct (String.eqb_spec n EmptyString) as [->|_]; [congruence|].
  destruct (String.eqb_spec e EmptyString) as [->|_]; [congruence|].
  destruct (String.eqb_spec p EmptyString) as [->|_]; [congruence|]. simpl.
  rewrite Hu. unfold User_new, validate_email. rewrite Hm.
  cbv [rbind set_password flush_instance insert_user require default
       UserObj.id UserObj.name UserObj.email UserObj.password_hash UserObj.is_admin fst snd].
  rewrite (find_none_existsb _ _ Hu).
  cbv [reload UserObj.id].
  pose proof (User_get_registered d n e (generate_password_hash salt p)) as G.
  unfold registered in *. rewrite G.
  unfold after_to_dict. simpl.
  destruct (serialize _ _ _ _); reflexivity.
Qed.

Lemma truthy_str_true (x : option string) :
  truthy_str x = true -> exists s, x = Some s /\ s <> EmptyString.
Proof.
  destruct x as [s|]; simpl; [|discriminate].
  intros H. exists s. split; [reflexivity|].
  intros ->. discriminate.
Qed.

(** The four ways [POST /register] ends. *)
Lemma register_cases (st : State) (now : Z) (salt : string) (data : RegisterData.t) :
  serve st now (POST_register salt data) = (Ok (Error "Missing required fields", 400), st) \/
  serve st now (POST_register salt data) = (Ok (Error "Email already exists", 400), st) \/
  serve st now (POST_register salt data) = (Raise (ValueError "Invalid email"), st) \/
  exists n e p,
    let u := registered (database st) n e (generate_password_hash salt p) in
    let d' := set_users (database st) (users (database st) ++ [u]) in
    serve st now (POST_register salt data) =
    (after_to_dict recursion_limit d' [OUser u] (Dict (IUser (UserObj_of_row u)), 201),
     mkState d' (cookie st)).
Proof.
  destruct (truthy_str (RegisterData.name data)) eqn:Hn;
    [|left; apply register_missing; auto].
  destruct (truthy_str (RegisterData.email data)) eqn:He;
    [|left; apply register_missing; auto].
  destruct (truthy_str (RegisterData.password data)) eqn:Hp;
    [|left; apply register_missing; auto].
  right.
  destruct (User_by_email (database st) (RegisterData.email data)) as [u|] eqn:Hu;
    [left; eapply register_conflict; eauto|].
  right.
  destruct (truthy_str_true _ Hn) as (n & En & Nn).
  destruct (truthy_str_true _ He) as (e & Ee & Ne).
  destruct (truthy_str_true _ Hp) as (p & Ep & Np).
  rewrite Ee in Hu.
  destruct (Re.match_anchored valid_email e) eqn:Hm.
  - right. exists n, e, p. apply register_created; assumption.
  - left. eapply register_invalid; eauto.
Qed.

(** One request leaves the database alone or adds one user row, which
    does not carry the admin flag; it leaves the session cookie alone or
    clears it. *)
Lemma serve_step (st : State) (now : Z) (req : Request) :
  (database (snd (serve st now req)) = database st \/
   exists n e h,
     database (snd (serve st now req)) =
     set_users (database st) (users (database st) ++ [registered (database st) n e h])) /\
  (cookie (snd (serve st now req)) = cookie st \/ cookie (snd (serve st now req)) = None).
Proof.
  destruct req as [salt data|data|j|j data|j data|j|j|j|j|j| |j|reply|rc payload].
  - destruct (register_cases st now salt data) as [H|[H|[H|(n & e & p & H)]]];
      rewrite H; simpl; auto.
    split; [right|left; reflexivity]. eauto.
  - rewrite serve_POST_login. auto.
  - destruct j; [rewrite serve_GET_cart|rewrite serve_unauthenticated_state by reflexivity]; auto.
  - destruct j; [rewrite serve_POST_cart|rewrite serve_unauthenticated_state by reflexivity]; auto.
  - destruct j; [rewrite serve_POST_mpesa_transaction
                |rewrite serve_unauthenticated_state by reflexivity]; auto.
  - destruct j; [rewrite serve_GET_user_orders
                |rewrite serve_unauthenticated_state by reflexivity]; auto.
  - destruct j; [rewrite serve_GET_user_borrowings
                |rewrite serve_unauthenticated_state by reflexivity]; auto.
  - destruct j; [rewrite serve_GET_admin_users
                |rewrite serve_unauthenticated_state by reflexivity]; auto.
  - destruct j; [rewrite serve_GET_admin_transactions
                |rewrite serve_unauthenticated_state by reflexivity]; auto.
  - destruct j; [rewrite serve_GET_admin_borrowings
                |rewrite serve_unauthenticated_state by reflexivity]; auto.
  - destruct st; simpl; auto.
  - destruct j; [rewrite serve_GET_admin_check
                |rewrite serve_unauthenticated_state by reflexivity]; auto.
  - destruct st; simpl; auto.
  - destruct st, rc; simpl; auto.
Qed.

Lemma set_users_same (d : Database) : set_users d (users d) = d.
Proof. destruct d; reflexivity. Qed.

(** A sequence of requests only appends user rows without the admin flag
    to the database. *)
Lemma run_database (reqs : list (Z * Request)) (st : State) :
  exists new,
    database (run st reqs) = set_users (database st) (users (database st) ++ new) /\
    Forall (fun u => User.is_admin u = Some false) new.
Proof.
  revert st. induction reqs as [|[now req] reqs IH]; intros st.
  - exists []. rewrite app_nil_r, set_users_same. auto.
  - change (run st ((now, req) :: reqs)) with (run (snd (serve st now req)) reqs).
    destruct (IH (snd (serve st now req))) as (new & E & F). rewrite E.
    destruct (serve_step st now req) as [[D|(n & e & h & D)] _]; rewrite D.
    + exists new. auto.
    + exists (registered (database st) n e h :: new). simpl.
      rewrite <- app_assoc. split; [reflexivity|].
      constructor; [reflexivity|assumption].
Qed.

(** No request puts a user id into the session. *)
Lemma run_cookie (reqs : list (Z * Request)) (st : State) :
  cookie st = None -> cookie (run st reqs) = None.
Proof.
  revert st. induction reqs as [|[now req] reqs IH]; intros st H; [exact H|].
  change (run st ((now, req) :: reqs)) with (run (snd (serve st now req)) reqs).
  apply IH.
  destruct (serve_step st now req) as [_ [C|C]]; congruence.
Qed.

(** The transactions a response carries are the stored ones, and no
    response carries a transaction of its own making. *)
Lemma serve_transactions (st : State) (now : Z) (req : Request) (b : Body) (code : Z) :
  fst (serve st now req) = Ok (b, code) ->
  match b with
  | TransactionList l => l = mpesa_transactions (database st)
  | Dict (ITransaction _) => False
  | _ => True
  end.
Proof.
  assert (U : unauthenticated req = true ->
              fst (serve st now req) = Ok (b, code) ->
              match b with
              | TransactionList l => l = mpesa_transactions (database st)
              | Dict (ITransaction _) => False
              | _ => True
              end).
  { intros H. destruct (serve_unauthenticated st now req H) as ([m c|e] & ->);
      simpl; intros E; inversion E; exact I. }
  destruct req as [salt data|data|j|j data|j data|j|j|j|j|j| |j|reply|rc payload];
    try (destruct j as [uid|]; [|apply U; reflexivity]); clear U.
  - destruct (register_cases st now salt data) as [H|[H|[H|(n & e & p & H)]]];
      rewrite H; simpl; intros E; try (inversion E; exact I).
    apply after_to_dict_ok in E. inversion E. exact I.
  - rewrite serve_POST_login_result. cbn [fst].
    destruct (User_by_email _ _).
    + destruct (LoginData.password data); [|discriminate].
      destruct (check_password_hash _ _); intros E; [|inversion E; exact I].
      apply after_to_dict_ok in E. inversion E. exact I.
    + intros E; inversion E; exact I.
  - rewrite serve_GET_cart. cbn [fst]. destruct (Cart_by_user _ _); intros E;
      [apply after_to_dict_ok in E|]; inversion E; exact I.
  - rewrite serve_POST_cart. cbn [fst].
    destruct (_ || _); [intros E; inversion E; exact I|].
    destruct (Book_query_get (database st) (CartData.book_id data)) as [[?|]|];
      [discriminate| |discriminate].
    intros E; inversion E; exact I.
  - rewrite serve_POST_mpesa_transaction. cbn [fst].
    destruct (negb _); [intros E; inversion E; exact I|discriminate].
  - rewrite serve_GET_user_orders. cbn [fst]. intros E.
    apply after_to_dict_ok in E. inversion E. exact I.
  - rewrite serve_GET_user_borrowings. cbn [fst]. intros E.
    apply after_to_dict_ok in E. inversion E. exact I.
  - rewrite serve_GET_admin_users. cbn [fst]. destruct (negb _); intros E;
      [|apply after_to_dict_ok in E]; inversion E; exact I.
  - rewrite serve_GET_admin_transactions. cbn [fst]. destruct (negb _); intros E;
      [|apply after_to_dict_ok in E]; inversion E; [exact I|reflexivity].
  - rewrite serve_GET_admin_borrowings. cbn [fst]. destruct (negb _); intros E;
      [|apply after_to_dict_ok in E]; inversion E; exact I.
  - destruct st; simpl; intros E; inversion E; exact I.
  - rewrite serve_GET_admin_check. cbn [fst]. destruct (User_get _ _) as [u|];
      [destruct (truthy_bool _)|]; intros E; inversion E; exact I.
  - destruct st; simpl; intros E; inversion E; exact I.
  - destruct st, rc; simpl; intros E; inversion E; exact I.
Qed.

(** [is_admin()] answers [False] for a missing or unknown identity and
    otherwise gives the stored flag of the user the session names. *)
Lemma is_admin_identity (st : State) :
  (cookie st = None \/ cookie st = Some 0 \/ User_get (database st) (cookie st) = None ->
   session_is_admin st = Some false) /\
  (forall u, truthy_int (cookie st) = true -> User_get (database st) (cookie st) = Some u ->
             session_is_admin st = User.is_admin u).
Proof.
  unfold session_is_admin. split.
  - intros [H|[H|H]]; rewrite H; try reflexivity.
    destruct (negb _); reflexivity.
  - intros u H1 H2. rewrite H1, H2. reflexivity.
Qed.

(** Where [CartResource.post] stops for a caller without cart: the new
    cart and the new order, with the book in its collection, are in the
    session, both still without primary key, and nothing has reached the
    database. *)
Lemma add_to_cart_unit_of_work
      (d : Database) (c : option Z) (now uid : Z) (data : CartData.t) (book : Book.t) :
  truthy_int (CartData.book_id data) = true ->
  truthy_int (CartData.quantity data) = true ->
  Book_get d (CartData.book_id data) = Some book ->
  Cart_by_user d uid = None ->
  CartResource_post (Some uid) data (mkWorld d d [] c now) =
  (Raise (IntegrityError (NotNull "order_books" "order_id")),
   mkWorld d d
     [ ICart (CartObj.mk None (Some uid));
       IOrder (OrderObj.mk None None None (Some uid) [book]) ]
     c now).
Proof.
  intros Hb Hq Hg Hc. run_handler. rewrite Hb, Hq. simpl.
  rewrite (Book_query_get_found _ _ _ Hg), Hc.
  reflexivity.
Qed.

(** What [POST /register] stores as the credential of a new user is the
    hash of the password; it is not the password as long as the hash
    function never returns its input. *)
Lemma register_stores_hash (st : State) (now : Z) (salt : string) (data : RegisterData.t)
      (n e p : string) :
  (forall s x, generate_password_hash s x <> x) ->
  RegisterData.name data = Some n -> n <> EmptyString ->
  RegisterData.email data = Some e -> e <> EmptyString ->
  RegisterData.password data = Some p -> p <> EmptyString ->
  User_by_email (database st) (Some e) = None ->
  Re.match_anchored valid_email e = true ->
  exists u,
    users (database (snd (serve st now (POST_register salt data)))) =
      users (database st) ++ [u] /\
    User.password_hash u = generate_password_hash salt p /\
    User.password_hash u <> p /\
    User.is_admin u = Some false.
Proof.
  intros Hh Hn Hnn He Hne Hp Hpn Hu Hm.
  rewrite (register_created st now salt data n e p) by assumption.
  eexists. simpl. repeat split. apply Hh.
Qed.

(** ** The properties C1 to C10 *)

(** C1 (the code departs from the claim).  [is_admin()] identifies the
    caller by the session key ['user_id'] and not by the token; no
    handler stores that key, so in every state reached from a fresh
    session the three admin listings answer 403 to every token, the
    token of a user whose stored [is_admin] flag is true included. *)
Theorem admin_listings_ignore_the_token
        (d : Database) (reqs : list (Z * Request)) (now identity : Z) :
  let st := run (mkState d None) reqs in
  serve st now (GET_admin_users (Some identity)) =
    (Ok (Error "Admin privileges required", 403), st) /\
  serve st now (GET_admin_transactions (Some identity)) =
    (Ok (Error "Admin privileges required", 403), st) /\
  serve st now (GET_admin_borrowings (Some identity)) =
    (Ok (Error "Admin privileges required", 403), st).
Proof.
  intros st.
  assert (A : session_is_admin st = Some false).
  { apply is_admin_identity. left. apply run_cookie. reflexivity. }
  rewrite serve_GET_admin_users, serve_GET_admin_transactions,
    serve_GET_admin_borrowings, A. auto.
Qed.

(** C2 (the code departs from the claim).  With an existing book and a
    quantity, [CartResource.post] builds the explicit INSERT into
    [order_books] from [order.id] while the order is still pending: the
    key is [None], the statement violates the NOT NULL of the primary
    key, the exception leaves the handler and nothing is stored: no
    cart, no order, no association row, and no 201. *)
Theorem add_to_cart_raises (st : State) (now uid : Z) (data : CartData.t) (book : Book.t) :
  truthy_int (CartData.book_id data) = true ->
  truthy_int (CartData.quantity data) = true ->
  Book_get (database st) (CartData.book_id data) = Some book ->
  serve st now (POST_cart (Some uid) data) =
  (Raise (IntegrityError (NotNull "order_books" "order_id")), st).
Proof.
  intros Hb Hq Hg.
  rewrite serve_POST_cart, Hb, Hq, (Book_query_get_found _ _ _ Hg). reflexivity.
Qed.

(** C3 (the code departs from the claim).  A missing amount is answered
    with 400 and nothing is stored; with an amount,
    [MpesaTransaction(amount=amount, user_id=user_id)] has no
    [mpesa_receipt], which the table declares [nullable=False]: the
    commit raises, no row is stored and no 201 is returned. *)
Theorem record_transaction_result (st : State) (now uid : Z) (data : MpesaData.t) :
  (truthy_num (MpesaData.amount data) = false ->
   serve st now (POST_mpesa_transaction (Some uid) data) =
   (Ok (Error "Amount is required", 400), st)) /\
  (truthy_num (MpesaData.amount data) = true ->
   serve st now (POST_mpesa_transaction (Some uid) data) =
   (Raise (IntegrityError (NotNull "mpesa_transactions" "mpesa_receipt")), st)).
Proof.
  rewrite serve_POST_mpesa_transaction.
  split; intros H; rewrite H; reflexivity.
Qed.

(** C4 (the code departs from the claim).  An address that does not match
    the pattern makes the constructor [User(name=name, email=email)]
    raise [ValueError("Invalid email")]; [Register.post] does not catch
    it, so the request ends with that exception instead of the 400
    answer the handler gives for a missing field or a taken address.  No
    user is stored. *)
Theorem register_invalid_email_raises
        (st : State) (now : Z) (salt : string) (data : RegisterData.t) (e : string) :
  truthy_str (RegisterData.name data) = true ->
  truthy_str (RegisterData.password data) = true ->
  RegisterData.email data = Some e ->
  e <> EmptyString ->
  User_by_email (database st) (Some e) = None ->
  Re.match_anchored valid_email e = false ->
  serve st now (POST_register salt data) = (Raise (ValueError "Invalid email"), st).
Proof. apply register_invalid. Qed.

(** C5.  Whatever the requests, every row of [order_books] keeps a
    quantity of at least 1 (no request ends up writing the table), and an
    INSERT that does not name [quantity] stores the default 1. *)
Theorem order_books_quantity_at_least_1
        (st : State) (reqs : list (Z * Request)) (d d' : Database) (o b : Z) :
  quantities_ok (database st) ->
  order_books_insert d (Some o) (Some b) None = Ok d' ->
  quantities_ok (database (run st reqs)) /\
  order_books (database (run st reqs)) = order_books (database st) /\
  order_books d' = order_books d ++ [OrderBook.mk o b 1].
Proof.
  intros Hq Hi.
  destruct (run_database reqs st) as (new & E & _).
  assert (T : order_books (database (run st reqs)) = order_books (database st))
    by (rewrite E; reflexivity).
  split; [|split; [exact T|]].
  - unfold quantities_ok. rewrite T. exact Hq.
  - unfold order_books_insert in Hi. simpl in Hi.
    destruct (existsb _ _); [discriminate|].
    inversion Hi. reflexivity.
Qed.

(** C6.  Whatever the requests, if every stored transaction has a
    positive amount and a status among Pending, Completed and Failed,
    the same holds afterwards and for every transaction a response
    carries; no request ends up storing or returning a transaction of
    its own. *)
Theorem transactions_stay_valid
        (st : State) (reqs : list (Z * Request)) (now : Z) (req : Request) :
  transactions_ok (database st) ->
  transactions_ok (database (run st reqs)) /\
  (forall l code, fst (serve (run st reqs) now req) = Ok (TransactionList l, code) ->
                  Forall transaction_ok l) /\
  (forall t code, fst (serve (run st reqs) now req) <> Ok (Dict (ITransaction t), code)).
Proof.
  intros Ht.
  destruct (run_database reqs st) as (new & E & _).
  assert (T : transactions_ok (database (run st reqs))).
  { unfold transactions_ok. rewrite E. exact Ht. }
  split; [exact T|split].
  - intros l code H. apply serve_transactions in H. subst l. exact T.
  - intros t code H. apply serve_transactions in H. exact H.
Qed.


(** C8.  [POST /cart] writes no book: the [books] table is the same
    before the request, at the point where the handler stops (inside the
    open transaction as well as in what is committed) and after the
    request, so every book is found with the same stock, price and
    flags. *)
Theorem add_to_cart_keeps_books
        (st : State) (now : Z) (jwt : option Z) (data : CartData.t) (id : option Z) :
  let w := snd (CartResource_post jwt data
                  (mkWorld (database st) (database st) [] (cookie st) now)) in
  let st' := snd (serve st now (POST_cart jwt data)) in
  books (current w) = books (database st) /\
  books (durable w) = books (database st) /\
  books (database st') = books (database st) /\
  Book_get (database st') id = Book_get (database st) id.
Proof.
  destruct st as [d c]. destruct jwt as [uid|]; [|cbv; auto].
  run_handler.
  destruct (negb (truthy_int (CartData.book_id data)) || negb (truthy_int (CartData.quantity data)));
    [cbv; auto|].
  destruct (Book_query_get d (CartData.book_id data)) as [[book|]|e]; [|cbv; auto..].
  destruct (Cart_by_user d uid); cbv; auto.
Qed.

(** C9.  A sequence of requests only appends to [users] rows whose
    [is_admin] is false; the rows that were there stay as they are.
    Hence a database without an admin stays without one. *)
Theorem no_admin_is_ever_created (st : State) (reqs : list (Z * Request)) :
  no_admin (database st) ->
  no_admin (database (run st reqs)) /\
  exists new,
    users (database (run st reqs)) = users (database st) ++ new /\
    Forall (fun u => User.is_admin u = Some false) new.
Proof.
  intros H. destruct (run_database reqs st) as (new & E & F).
  assert (U : users (database (run st reqs)) = users (database st) ++ new)
    by (rewrite E; reflexivity).
  split; [|exists new; auto].
  unfold no_admin. rewrite U. apply Forall_app. split; [exact H|].
  eapply Forall_impl; [|exact F]. simpl. intros u Hu. rewrite Hu. discriminate.
Qed.

(** What [GET /user/orders] and [GET /user/borrowings] select: the stored
    rows whose [user_id] is the identity of the token; each of them is
    then serialised, and the answer, when there is one, is 200 with these
    rows. *)
Lemma user_listings_select (st : State) (now uid : Z) :
  serve st now (GET_user_orders (Some uid)) =
    (after_to_dict recursion_limit (database st)
       (map OOrder (Orders_by_user (database st) uid))
       (OrderList (Orders_by_user (database st) uid), 200), st) /\
  (forall o, In o (Orders_by_user (database st) uid) <->
             In o (orders (database st)) /\ Order.user_id o = Some uid) /\
  serve st now (GET_user_borrowings (Some uid)) =
    (after_to_dict recursion_limit (database st)
       (map OBorrowing (Borrowings_by_user (database st) uid))
       (BorrowingList (Borrowings_by_user (database st) uid), 200), st) /\
  (forall b, In b (Borrowings_by_user (database st) uid) <->
             In b (borrowings (database st)) /\ Borrowing.user_id b = uid).
Proof.
  rewrite serve_GET_user_orders, serve_GET_user_borrowings.
  split; [reflexivity|]. split; [|split; [reflexivity|]].
  - intros o. unfold Orders_by_user. rewrite filter_In.
    destruct (Order.user_id o) as [u|].
    + rewrite Z.eqb_eq. split; intros [H1 H2]; split; congruence.
    + split; intros [H1 H2]; discriminate.
  - intros b. unfold Borrowings_by_user. rewrite filter_In, Z.eqb_eq. reflexivity.
Qed.

(** C10 (the code departs from the claim).  On the database of seed.py
    the two listings of a seeded user return nothing: [order.to_dict()]
    goes from the order to its user and on to the borrowings of the
    user, [borrowing.to_dict()] to the book of the borrowing, and from
    there the rules of models.py let the recursion run in a circle
    (borrowing, book, cart item, cart, user, borrowing), so that the
    request ends with [RecursionError] whatever the recursion limit. *)
Theorem user_listings_raise_on_the_seed (h : string) (now t uid : Z) (c : option Z) :
  1 <= uid <= 5 ->
  let st := mkState (seed h now) c in
  serve st t (GET_user_orders (Some uid)) = (Raise RecursionError, st) /\
  serve st t (GET_user_borrowings (Some uid)) = (Raise RecursionError, st).
Proof.
  intros H st.
  rewrite serve_GET_user_orders, serve_GET_user_borrowings.
  assert (U : uid = 1 \/ uid = 2 \/ uid = 3 \/ uid = 4 \/ uid = 5) by lia.
  destruct U as [->|[->|[->|[->| ->]]]];
    (split; (f_equal; eapply after_to_dict_raises; [rows; left; reflexivity|diverge 2%nat])).
Qed.

End Results.
(** ** The handlers on the seeded database *)

Open Scope string_scope.

Example valid_email_alice : Re.match_anchored valid_email "alice@example.com" = true.
Proof. vm_compute. reflexivity. Qed.

Example valid_email_plus : Re.match_anchored valid_email "a.b+c@x-y.co.uk" = true.
Proof. vm_compute. reflexivity. Qed.

Example valid_email_no_at : Re.match_anchored valid_email "alice.example.com" = false.
Proof. vm_compute. reflexivity. Qed.

Example valid_email_no_dot : Re.match_anchored valid_email "alice@example" = false.
Proof. vm_compute. reflexivity. Qed.

(** [$] also matches before a newline that ends the string. *)
Example valid_email_newline :
  Re.match_anchored valid_email (String.append "alice@example.com" (String "010"%char "")) = true.
Proof. vm_compute. reflexivity. Qed.

Example valid_email_space : Re.match_anchored valid_email "alice@example.com x" = false.
Proof. vm_compute. reflexivity. Qed.

(** Frank registers: 201, user 6, the stored credential is the hash. *)
Example register_frank :
  Demo.serve Scenario.st0 1 (POST_register "salt" Scenario.frank) =
  (Ok (Dict (IUser (UserObj.mk (Some 6) (Some "Frank") (Some "frank@example.com")
                               (Some Demo.hashed) (Some false))), 201)%string,
   Scenario.st1).
Proof. vm_compute. reflexivity. Qed.

(** A second registration with the same address, other name and password. *)
Example register_frank_again :
  Demo.serve Scenario.st1 2
    (POST_register "pepper"
       (RegisterData.mk (Some "Francis") (Some "frank@example.com") (Some "secret"))%string) =
  (Ok (Error "Email already exists", 400), Scenario.st1).
Proof. vm_compute. reflexivity. Qed.

(** Frank logs in and receives a token for identity 6. *)
Example login_frank :
  fst (Demo.serve Scenario.st1 2
         (POST_login (LoginData.mk (Some "frank@example.com") (Some "password"))%string)) =
  Ok (LoginDict "Login successful" 6
        (User.mk 6 "Frank" "frank@example.com" Demo.hashed (Some false)), 200).
Proof. vm_compute. reflexivity. Qed.

(** The caller whose stored flag is true: [/admin_check] accepts the
    token, [/admin/users] refuses it. *)
Example admin_token_refused :
  Demo.serve Scenario.st_admin 1 (GET_admin_check (Some 1)) =
    (Ok (Message "User is an admin", 200), Scenario.st_admin) /\
  Demo.serve Scenario.st_admin 1 (GET_admin_users (Some 1)) =
    (Ok (Error "Admin privileges required", 403), Scenario.st_admin).
Proof. split; vm_compute; reflexivity. Qed.

(** With the session key set (which no request does), the check goes by
    the flag of the user the session names, whatever the token; the
    listing is then given when its rows can be serialised, which the
    seeded rows cannot. *)
Example admin_session_accepted :
  fst (Demo.serve Scenario.st_root 1 (GET_admin_users (Some 2))) =
    Ok (UserList (users (database Scenario.st_root)), 200) /\
  fst (Demo.serve (mkState (database Scenario.st_admin) (Some 1)) 1 (GET_admin_users (Some 2))) =
    Raise RecursionError.
Proof. split; vm_compute; reflexivity. Qed.

(** Frank, who has no order and no borrowing, gets his empty listings;
    without a token the request is refused. *)
Example listings_frank :
  Demo.serve Scenario.st1 2 (GET_user_orders (Some 6)) = (Ok (OrderList [], 200), Scenario.st1) /\
  Demo.serve Scenario.st1 2 (GET_user_borrowings (Some 6)) =
    (Ok (BorrowingList [], 200), Scenario.st1) /\
  Demo.serve Scenario.st1 2 (GET_cart (Some 6)) =
    (Ok (Error "No cart found for user", 404), Scenario.st1) /\
  Demo.serve Scenario.st1 2 (GET_user_orders None) =
    (Raise (JWTError "Missing Authorization Header"), Scenario.st1) /\
  Demo.serve Scenario.st1 2 (GET_admin_check None) =
    (Ok (Msg "Missing Authorization Header", 401), Scenario.st1).
Proof. repeat split; vm_compute; reflexivity. Qed.

(** ** Instances of the theorems *)

Lemma add_to_cart_raises_witness :
  Cart_by_user (database Scenario.st1) 6 = None /\
  Demo.serve Scenario.st1 2 (POST_cart (Some 6) (CartData.mk (Some 1) (Some 2))) =
  (Raise (IntegrityError (NotNull "order_books" "order_id")), Scenario.st1).
Proof.
  split; [vm_compute; reflexivity|].
  apply (add_to_cart_raises Demo.generate_password_hash Demo.check_password_hash
           Demo.recursion_limit Demo.jwt_refusal
           Scenario.st1 2 6 (CartData.mk (Some 1) (Some 2)) Scenario.gatsby);
    vm_compute; reflexivity.
Defined.

Lemma record_transaction_result_witness :
  Demo.serve Scenario.st1 2 (POST_mpesa_transaction (Some 6) (MpesaData.mk None)) =
    (Ok (Error "Amount is required", 400), Scenario.st1) /\
  Demo.serve Scenario.st1 2 (POST_mpesa_transaction (Some 6) (MpesaData.mk (Some (100 # 1)))) =
    (Raise (IntegrityError (NotNull "mpesa_transactions" "mpesa_receipt")), Scenario.st1).
Proof.
  split.
  - apply (proj1 (record_transaction_result Demo.generate_password_hash Demo.check_password_hash
                  Demo.recursion_limit Demo.jwt_refusal
                  Scenario.st1 2 6 (MpesaData.mk None))).
    reflexivity.
  - apply (proj2 (record_transaction_result Demo.generate_password_hash Demo.check_password_hash
                  Demo.recursion_limit Demo.jwt_refusal
                  Scenario.st1 2 6
                    (MpesaData.mk (Some (100 # 1))))).
    reflexivity.
Defined.

Lemma register_invalid_email_raises_witness :
  Demo.serve Scenario.st0 1
    (POST_register "salt"
       (RegisterData.mk (Some "Grace") (Some "grace.example.com") (Some "password"))%string) =
  (Raise (ValueError "Invalid email"), Scenario.st0).
Proof.
  apply (register_invalid_email_raises Demo.generate_password_hash Demo.check_password_hash
           Demo.recursion_limit Demo.jwt_refusal
           Scenario.st0 1 "salt"
           (RegisterData.mk (Some "Grace") (Some "grace.example.com") (Some "password"))%string
           "grace.example.com");
    try (vm_compute; reflexivity).
  discriminate.
Defined.

Lemma order_books_quantity_at_least_1_witness :
  quantities_ok (database (Demo.run Scenario.st_admin Scenario.requests)) /\
  order_books (database (Demo.run Scenario.st_admin Scenario.requests)) =
    [OrderBook.mk 1 1 2; OrderBook.mk 2 3 1] /\
  order_books (set_order_books (database Scenario.st_admin)
                 [OrderBook.mk 1 1 2; OrderBook.mk 2 3 1; OrderBook.mk 3 2 1]) =
    ([OrderBook.mk 1 1 2; OrderBook.mk 2 3 1] ++ [OrderBook.mk 3 2 1])%list.
Proof.
  apply (order_books_quantity_at_least_1 Demo.generate_password_hash Demo.check_password_hash
           Demo.recursion_limit Demo.jwt_refusal
           Scenario.st_admin Scenario.requests (database Scenario.st_admin)
           (set_order_books (database Scenario.st_admin)
              [OrderBook.mk 1 1 2; OrderBook.mk 2 3 1; OrderBook.mk 3 2 1]) 3 2).
  - repeat constructor; simpl; lia.
  - vm_compute. reflexivity.
Defined.

Lemma seed_transactions_ok (h : string) (now : Z) : transactions_ok (seed h now).
Proof.
  unfold transactions_ok. simpl.
  repeat (apply Forall_cons; [split; [reflexivity|simpl; tauto]|]).
  apply Forall_nil.
Qed.

Lemma transactions_stay_valid_witness :
  transactions_ok (database (Demo.run Scenario.st0 Scenario.requests)) /\
  (forall l code,
      fst (Demo.serve (Demo.run Scenario.st0 Scenario.requests) 7
             (GET_admin_transactions (Some 1))) = Ok (TransactionList l, code) ->
      Forall transaction_ok l) /\
  (forall t code,
      fst (Demo.serve (Demo.run Scenario.st0 Scenario.requests) 7
             (GET_admin_transactions (Some 1))) <> Ok (Dict (ITransaction t), code)).
Proof.
  apply (transactions_stay_valid Demo.generate_password_hash Demo.check_password_hash
           Demo.recursion_limit Demo.jwt_refusal
           Scenario.st0 Scenario.requests 7 (GET_admin_transactions (Some 1))).
  unfold transactions_ok. simpl.
  repeat (apply Forall_cons; [split; [reflexivity|simpl; tauto]|]).
  apply Forall_nil.
Defined.



Lemma user_listings_raise_on_the_seed_witness :
  Demo.serve Scenario.st0 1 (GET_user_orders (Some 1)) =
    (Raise RecursionError, Scenario.st0) /\
  Demo.serve Scenario.st0 1 (GET_user_borrowings (Some 1)) =
    (Raise RecursionError, Scenario.st0).
Proof.
  apply (user_listings_raise_on_the_seed Demo.generate_password_hash Demo.check_password_hash
           Demo.recursion_limit Demo.jwt_refusal
           Demo.hashed 0 1 1 None).
  lia.
Defined.

Lemma seed_no_admin (h : string) (now : Z) : no_admin (seed h now).
Proof.
  repeat constructor; discriminate.
Qed.

Lemma no_admin_is_ever_created_witness :
  no_admin (database (Demo.run Scenario.st0 Scenario.requests)) /\
  exists new,
    users (database (Demo.run Scenario.st0 Scenario.requests)) =
    (users (database Scenario.st0) ++ new)%list /\
    Forall (fun u => User.is_admin u = Some false) new.
Proof.
  apply (no_admin_is_ever_created Demo.generate_password_hash Demo.check_password_hash
           Demo.recursion_limit Demo.jwt_refusal
           Scenario.st0 Scenario.requests).
  repeat constructor; discriminate.
Defined.

Lemma length_append (s t : string) :
  String.length (s ++ t) = (String.length s + String.length t)%nat.
Proof.
  induction s as [|c s IH]; simpl; [reflexivity|]. rewrite IH. reflexivity.
Qed.

Lemma length_rev_string (s : string) :
  String.length (Demo.rev_string s) = String.length s.
Proof.
  induction s as [|c s IH]; simpl; [reflexivity|].
  rewrite length_append, IH. simpl. lia.
Qed.

(** The stand-in hash never returns the password. *)
Lemma demo_hash_differs (salt password : string) :
  Demo.generate_password_hash salt password <> password.
Proof.
  unfold Demo.generate_password_hash. intros H.
  apply (f_equal String.length) in H.
  rewrite !length_append, length_rev_string in H. simpl in H. lia.
Qed.

Lemma register_stores_hash_witness :
  exists u,
    users (database (snd (Demo.serve Scenario.st0 1 (POST_register "salt" Scenario.frank)))) =
      (users (database Scenario.st0) ++ [u])%list /\
    User.password_hash u = Demo.generate_password_hash "salt" "password" /\
    User.password_hash u <> "password" /\
    User.is_admin u = Some false.
Proof.
  apply (register_stores_hash Demo.generate_password_hash Demo.check_password_hash
           Demo.recursion_limit Demo.jwt_refusal
           Scenario.st0 1 "salt" Scenario.frank "Frank" "frank@example.com" "password");
    try (vm_compute; reflexivity); try discriminate.
  apply demo_hash_differs.
Defined.

(** * Further results: the validators, the tables and the other handlers *)

Close Scope string_scope.
Open Scope list_scope.

(** ** [User.validate_email] *)

Lemma chomp_spec (s : string) :
  forall t, Re.chomp s = Some t <-> s = (t ++ newline)%string.
Proof.
  unfold newline.
  induction s as [|c s IH]; intros t.
  - simpl. split; [discriminate|]. destruct t; discriminate.
  - destruct s as [|c' s'].
    + simpl. destruct (Ascii.eqb_spec c "010"%char) as [->|N].
      * split.
        -- intros H. inversion H. reflexivity.
        -- intros H. destruct t as [|a t]; [reflexivity|].
           simpl in H. inversion H. destruct t; discriminate.
      * split; [discriminate|].
        intros H. destruct t as [|a t]; simpl in H.
        -- inversion H. congruence.
        -- inversion H. destruct t; discriminate.
    + change (Re.chomp (String c (String c' s')))
        with (match Re.chomp (String c' s') with
              | Some u => Some (String c u)
              | None => None
              end).
      destruct (Re.chomp (String c' s')) as [u|] eqn:E.
      * split.
        -- intros H. inversion H. subst t. simpl. f_equal.
           apply IH. reflexivity.
        -- intros H. destruct t as [|a t]; simpl in H; [inversion H|].
           inversion H. subst a.
           match goal with E' : String c' s' = _ |- _ => apply IH in E'; inversion E' end.
           reflexivity.
      * split; [discriminate|].
        intros H. destruct t as [|a t]; simpl in H; [inversion H|].
        inversion H.
        match goal with E' : String c' s' = _ |- _ => apply IH in E'; discriminate end.
Qed.

Lemma match_anchored_shape (e : string) :
  Re.match_anchored valid_email e = true <->
  email_shape e \/ exists t, e = (t ++ newline)%string /\ email_shape t.
Proof.
  unfold Re.match_anchored, email_shape. rewrite orb_true_iff, valid_email_fullmatch.
  split; intros [H|H]; auto; right.
  - destruct (Re.chomp e) as [t|] eqn:E; [|discriminate].
    exists t. split; [apply chomp_spec; exact E|].
    apply valid_email_fullmatch. exact H.
  - destruct H as (t & E & H). apply chomp_spec in E. rewrite E.
    apply valid_email_fullmatch. exact H.
Qed.

(** X1.  [validate_email] returns the address when it is a nonempty local
    part of [a-zA-Z0-9_.+-], an [@], a nonempty label of [a-zA-Z0-9-], a
    dot and a nonempty rest of [a-zA-Z0-9-.], possibly followed by one
    final newline; for every other string it raises
    [ValueError("Invalid email")]. *)
Theorem validate_email_accepts (e : string) :
  (validate_email (Some e) = Ok (Some e) <->
   email_shape e \/ exists t, e = (t ++ newline)%string /\ email_shape t) /\
  (validate_email (Some e) <> Ok (Some e) ->
   validate_email (Some e) = Raise (ValueError "Invalid email")).
Proof.
  unfold validate_email. rewrite <- match_anchored_shape.
  destruct (Re.match_anchored valid_email e); split; try split;
    try reflexivity; try discriminate; congruence.
Qed.

Lemma all_chars_app (p : ascii -> bool) (s t : string) :
  Re.all_chars p (s ++ t) = Re.all_chars p s && Re.all_chars p t.
Proof.
  induction s as [|c s IH]; simpl; [reflexivity|].
  rewrite IH. apply andb_assoc.
Qed.

Lemma append_assoc (s t u : string) : ((s ++ t) ++ u)%string = (s ++ t ++ u)%string.
Proof.
  induction s as [|c s IH]; simpl; [reflexivity|]. rewrite IH. reflexivity.
Qed.

(** X2.  The validator does not look at how the part after the dot ends:
    an accepted address stays accepted when a dot, a hyphen, a letter or
    a digit is appended, so [a@b.c.] and [a@b.c..-] pass. *)
Theorem validate_email_ignores_the_ending (e : string) (c : ascii) :
  Re.fullmatch valid_email e = true ->
  suffix_char c = true ->
  validate_email (Some (e ++ String c EmptyString)%string) =
  Ok (Some (e ++ String c EmptyString)%string).
Proof.
  intros He Hc. apply validate_email_accepts. left.
  apply valid_email_fullmatch in He. destruct He as (l & d & t & -> & Hl & Hd & Ht).
  exists l, d, (t ++ String c EmptyString)%string.
  split; [|split; [exact Hl|split; [exact Hd|]]].
  - rewrite !append_assoc. reflexivity.
  - destruct Ht as [Hn Ha]. split.
    + destruct t; [congruence|discriminate].
    + rewrite all_chars_app, Ha. simpl. rewrite Hc. reflexivity.
Qed.

(** ** [Order]: statuses *)

Lemma valid_status_iff (s : string) :
  existsb (String.eqb s) VALID_STATUSES = true <-> In s VALID_STATUSES.
Proof.
  rewrite existsb_exists. split.
  - intros (x & Hx & E). apply String.eqb_eq in E. subst. exact Hx.
  - intros H. exists s. split; [exact H|apply String.eqb_refl].
Qed.

(** X3.  An order built by [Order(...)] and flushed is stored with one
    of the four statuses: a status that is given is checked by the
    validator, which raises [ValueError] for any other string, and one
    that is not given becomes ["Pending"]; the orders that were stored
    stay as they are. *)
Theorem flushed_order_has_valid_status
        (now : Z) (d d' : Database) (order_date user_id : option Z)
        (status : option string) (o o' : OrderObj.t) :
  orders_ok d ->
  Order_new order_date status user_id = Ok o ->
  insert_order now d o = Ok (o', d') ->
  orders_ok d' /\
  (exists row, orders d' = orders d ++ [row] /\
               Order.status row = default "Pending"%string status /\
               Order.user_id row = user_id) /\
  (forall s, ~ In s VALID_STATUSES ->
             Order_new order_date (Some s) user_id =
             Raise (ValueError "Invalid order status")).
Proof.
  intros Hd Hn Hi.
  assert (S : In (default "Pending"%string status) VALID_STATUSES /\
              OrderObj.status o = status /\ OrderObj.user_id o = user_id /\
              OrderObj.books o = []).
  { unfold Order_new in Hn. destruct status as [s|].
    - unfold validate_status in Hn.
      destruct (existsb (String.eqb s) VALID_STATUSES) eqn:E; simpl in Hn;
        [|discriminate].
      inversion Hn. simpl. split; [apply valid_status_iff; exact E|auto].
    - inversion Hn. simpl. auto. }
  destruct S as (Hs & Es & Eu & Eb).
  unfold insert_order in Hi. rewrite Eb, Es, Eu in Hi. simpl in Hi. inversion Hi.
  split; [|split].
  - unfold orders_ok. simpl. apply Forall_app. split; [exact Hd|].
    constructor; [exact Hs|constructor].
  - eexists. simpl. repeat split.
  - intros s Hs'. unfold Order_new, validate_status.
    destruct (existsb (String.eqb s) VALID_STATUSES) eqn:E; [|reflexivity].
    apply valid_status_iff in E. contradiction.
Qed.

(** ** The constraints of the tables *)

Lemma NoDup_snoc {A : Type} (l : list A) (x : A) :
  NoDup l -> ~ In x l -> NoDup (l ++ [x]).
Proof.
  intros H N. induction H as [|y l Hy H IH]; simpl.
  - constructor; [intros []|constructor].
  - constructor.
    + rewrite in_app_iff. intros [I|[E|[]]]; [contradiction|].
      subst. apply N. left. reflexivity.
    + apply IH. intros I. apply N. right. exact I.
Qed.

Lemma NoDup_map_snoc {A B : Type} (f : A -> B) (l : list A) (x : A) :
  NoDup (map f l) -> ~ In (f x) (map f l) -> NoDup (map f (l ++ [x])).
Proof.
  intros H N. rewrite map_app. simpl. apply NoDup_snoc; assumption.
Qed.

Lemma no_string_key {A : Type} (f : A -> string) (l : list A) (e : string) :
  existsb (fun x => String.eqb (f x) e) l = false -> ~ In e (map f l).
Proof.
  intros H I. apply in_map_iff in I. destruct I as (x & E & I).
  assert (T : existsb (fun x => String.eqb (f x) e) l = true).
  { apply existsb_exists. exists x. split; [exact I|]. subst. apply String.eqb_refl. }
  congruence.
Qed.

Lemma no_order_book_key (l : list OrderBook.t) (o b : Z) :
  existsb (fun r => (OrderBook.order_id r =? o) && (OrderBook.book_id r =? b)) l = false <->
  ~ In (o, b) (map order_book_key l).
Proof.
  split.
  - intros H I. apply in_map_iff in I. destruct I as (x & E & I).
    assert (T : existsb (fun r => (OrderBook.order_id r =? o) && (OrderBook.book_id r =? b)) l
                = true).
    { apply existsb_exists. exists x. split; [exact I|].
      unfold order_book_key in E. inversion E. rewrite !Z.eqb_refl. reflexivity. }
    congruence.
  - intros N. destruct (existsb _ l) eqn:E; [|reflexivity].
    apply existsb_exists in E. destruct E as (x & I & E).
    apply andb_true_iff in E. destruct E as [E1 E2].
    apply Z.eqb_eq in E1. apply Z.eqb_eq in E2.
    exfalso. apply N. apply in_map_iff. exists x. split; [|exact I].
    unfold order_book_key. congruence.
Qed.

Lemma order_books_insert_inv
      (d d' : Database) (o b : Z) (quantity : option (option Z)) :
  order_books_insert d (Some o) (Some b) quantity = Ok d' ->
  exists q,
    default (Some quantity_default) quantity = Some q /\
    ~ In (o, b) (map order_book_key (order_books d)) /\
    d' = set_order_books d (order_books d ++ [OrderBook.mk o b q]).
Proof.
  intros Hi. unfold order_books_insert in Hi. simpl in Hi.
  destruct (default (Some quantity_default) quantity) as [q|] eqn:Eq; [|discriminate].
  simpl in Hi.
  destruct (existsb _ (order_books d)) eqn:E; [discriminate|].
  inversion Hi. apply no_order_book_key in E. exists q. auto.
Qed.

Ltac keys := unfold keys_ok in *; simpl in *; intuition auto.

Lemma order_books_link_inv (bs : list Book.t) :
  forall (d d' : Database) (o : Z),
    order_books_link d o bs = Ok d' ->
    exists rows,
      d' = set_order_books d (order_books d ++ rows) /\
      Forall (fun r => OrderBook.quantity r = quantity_default) rows /\
      (NoDup (map order_book_key (order_books d)) ->
       NoDup (map order_book_key (order_books d ++ rows))).
Proof.
  induction bs as [|b bs IH]; intros d d' o H; simpl in H.
  - inversion H. exists []. rewrite app_nil_r. destruct d'. auto.
  - destruct (order_books_insert d (Some o) (Some (Book.id b)) None) as [d1|e] eqn:E;
      simpl in H; [|discriminate].
    apply order_books_insert_inv in E. destruct E as (q & Eq & N & ->).
    simpl in Eq. inversion Eq. subst q.
    apply IH in H. destruct H as (rows & -> & F & K). simpl in *.
    exists (OrderBook.mk o (Book.id b) quantity_default :: rows).
    rewrite <- app_assoc in *. simpl in *. split; [reflexivity|]. split.
    + constructor; [reflexivity|exact F].
    + intros Hk. apply K. apply NoDup_map_snoc; assumption.
Qed.



(** What the flush of one instance does to the constraints. *)
Lemma flush_instance_keeps (now : Z) (d d' : Database) (i i' : Instance) :
  flush_instance now d i = Ok (i', d') ->
  (keys_ok d -> keys_ok d') /\
  (quantities_ok d -> quantities_ok d') /\
  persistent i' = true /\
  (persistent i = true -> i' = i /\ d' = d).
Proof.
  destruct i as [o|o|o|o]; simpl.
  - destruct (UserObj.id o) eqn:Ei.
    + intros H. inversion H. subst. simpl. rewrite Ei. auto.
    + unfold insert_user.
      destruct (UserObj.name o); simpl; [|discriminate].
      destruct (UserObj.email o) as [e|]; simpl; [|discriminate].
      destruct (UserObj.password_hash o); simpl; [|discriminate].
      destruct (existsb _ (users d)) eqn:E; simpl; [discriminate|].
      intros H. inversion H. simpl. apply no_string_key in E.
      split; [|split; [auto|split; [reflexivity|discriminate]]].
      intros K. keys.
      * apply NoDup_map_snoc; [assumption|apply next_id_fresh].
      * apply NoDup_map_snoc; assumption.
  - destruct (CartObj.id o) eqn:Ei.
    + intros H. inversion H. subst. simpl. rewrite Ei. auto.
    + unfold insert_cart.
      destruct (CartObj.user_id o); simpl; [|discriminate].
      intros H. inversion H. simpl.
      split; [|split; [auto|split; [reflexivity|discriminate]]].
      intros K. keys. apply NoDup_map_snoc; [assumption|apply next_id_fresh].
  - destruct (OrderObj.id o) eqn:Ei.
    + intros H. inversion H. subst. simpl. rewrite Ei. auto.
    + unfold insert_order.
      destruct (order_books_link _ _ _) as [d2|e] eqn:L; simpl; [|discriminate].
      intros H. inversion H. subst. simpl.
      apply order_books_link_inv in L. destruct L as (rows & -> & F & K). simpl in *.
      split; [|split; [|split; [reflexivity|discriminate]]].
      * intros Hk. keys. apply NoDup_map_snoc; [assumption|apply next_id_fresh].
      * unfold quantities_ok. simpl. intros Hq. apply Forall_app. split; [exact Hq|].
        eapply Forall_impl; [|exact F]. simpl. intros r ->. unfold quantity_default. lia.
  - destruct (MpesaTransactionObj.id o) eqn:Ei.
    + intros H. inversion H. subst. simpl. rewrite Ei. auto.
    + unfold insert_mpesa_transaction.
      destruct (MpesaTransactionObj.user_id o); simpl; [|discriminate].
      destruct (MpesaTransactionObj.amount o); simpl; [|discriminate].
      destruct (MpesaTransactionObj.mpesa_receipt o) as [r|]; simpl; [|discriminate].
      destruct (existsb _ (mpesa_transactions d)) eqn:E; simpl; [discriminate|].
      intros H. inversion H. simpl. apply no_string_key in E.
      split; [|split; [auto|split; [reflexivity|discriminate]]].
      intros K. keys.
      * apply NoDup_map_snoc; [assumption|apply next_id_fresh].
      * apply NoDup_map_snoc; assumption.
Qed.

Lemma flush_instances_keeps (now : Z) (l : list Instance) :
  forall (d d' : Database) (l' : list Instance),
    flush_instances now d l = Ok (l', d') ->
    (keys_ok d -> keys_ok d') /\
    (quantities_ok d -> quantities_ok d') /\
    forallb persistent l' = true /\
    (forallb persistent l = true -> l' = l /\ d' = d).
Proof.
  induction l as [|i l IH]; intros d d' l' H; simpl in H.
  - inversion H. auto.
  - destruct (flush_instance now d i) as [[i1 d1]|e] eqn:E1; simpl in H; [|discriminate].
    destruct (flush_instances now d1 l) as [[l2 d2]|e] eqn:E2; simpl in H; [|discriminate].
    inversion H. subst.
    apply flush_instance_keeps in E1. destruct E1 as (K1 & Q1 & P1 & S1).
    apply IH in E2. destruct E2 as (K2 & Q2 & P2 & S2).
    simpl. rewrite P1, P2.
    split; [auto|split; [auto|split; [reflexivity|]]].
    intros P. apply andb_true_iff in P. destruct P as [Hi Hl].
    destruct (S1 Hi) as [-> ->]. destruct (S2 Hl) as [-> ->]. auto.
Qed.


Lemma flush_instances_persistent (now : Z) (d : Database) (l : list Instance) :
  forallb persistent l = true -> flush_instances now d l = Ok (l, d).
Proof.
  induction l as [|i l IH]; simpl; intros P; [reflexivity|].
  apply andb_true_iff in P. destruct P as [Pi Pl].
  assert (Ei : flush_instance now d i = Ok (i, d)).
  { destruct i as [o|o|o|o]; simpl in *;
      [destruct (UserObj.id o)|destruct (CartObj.id o)
      |destruct (OrderObj.id o)|destruct (MpesaTransactionObj.id o)];
      try discriminate; reflexivity. }
  rewrite Ei. simpl. rewrite (IH Pl). reflexivity.
Qed.

Lemma flush_again (v v' : World) :
  flush v = (Ok tt, v') ->
  forallb persistent (identity v') = true /\ flush v' = (Ok tt, v').
Proof.
  intros H. unfold flush in H.
  destruct (flush_instances (clock v) (current v) (identity v)) as [[l d]|e] eqn:E;
    [|discriminate].
  inversion H. subst v'. clear H.
  apply flush_instances_keeps in E. destruct E as (_ & _ & P & _).
  split; [exact P|]. unfold flush. simpl.
  rewrite (flush_instances_persistent _ _ _ P). reflexivity.
Qed.

(** After a flush that succeeded every instance of the session has its
    primary key, and a second flush (or a second commit after a commit)
    writes nothing. *)
Lemma flush_twice_writes_once (w w' : World) :
  (flush w = (Ok tt, w') ->
   forallb persistent (identity w') = true /\ flush w' = (Ok tt, w')) /\
  (commit w = (Ok tt, w') ->
   durable w' = current w' /\ commit w' = (Ok tt, w')).
Proof.
  split; [apply flush_again|].
  intros H. unfold commit, bind in H.
  destruct (flush w) as [[[]|e] v] eqn:E; [|discriminate].
  inversion H. subst w'. clear H. simpl. split; [reflexivity|].
  apply flush_again in E. destruct E as [P _].
  unfold commit, bind, flush. simpl.
  rewrite (flush_instances_persistent _ _ _ P). reflexivity.
Qed.

(** ** The handlers the properties above do not reach *)

Lemma filter_nil {A : Type} (f : A -> bool) (l : list A) :
  (forall x, In x l -> f x = false) -> filter f l = [].
Proof.
  induction l as [|x l IH]; simpl; intros H; [reflexivity|].
  rewrite (H x) by auto. apply IH. auto.
Qed.

Lemma find_nil {A : Type} (f : A -> bool) (l : list A) :
  (forall x, In x l -> f x = false) -> find f l = None.
Proof.
  induction l as [|x l IH]; simpl; intros H; [reflexivity|].
  rewrite (H x) by auto. apply IH. auto.
Qed.

(** Where the foreign keys resolve, no row names the user that is about
    to be stored: the new user has no order, borrowing, cart or
    transaction. *)
Lemma new_user_is_alone (d : Database) :
  user_keys_ok d ->
  let i := next_id (map User.id (users d)) in
  Orders_by_user d i = [] /\ Borrowings_by_user d i = [] /\
  Cart_by_user d i = None /\ Transactions_by_user d i = [].
Proof.
  intros (Ho & Hb & Hc & Ht) i.
  assert (N : forall k, In k (map User.id (users d)) -> (k =? i) = false).
  { intros k I. apply Z.eqb_neq. intros ->. exact (proj1 (next_id_fresh _) I). }
  rewrite Forall_forall in Ho, Hb, Hc, Ht.
  split; [|split; [|split]].
  - apply filter_nil. intros o I. specialize (Ho o I).
    destruct (Order.user_id o); auto.
  - apply filter_nil. intros b I. auto.
  - apply find_nil. intros c I. auto.
  - apply filter_nil. intros t I. auto.
Qed.

(** The dictionary of a user without related rows is made as soon as
    [to_dict] may be entered at all. *)
Lemma serialize_new_user (n : nat) (d : Database) (u : User.t) :
  Orders_by_user d (User.id u) = [] -> Borrowings_by_user d (User.id u) = [] ->
  Cart_by_user d (User.id u) = None -> Transactions_by_user d (User.id u) = [] ->
  exists j, serialize (S n) d [] (OUser u) = Ok j.
Proof.
  intros Ho Hb Hc Ht. apply serialize_leaf.
  unfold children, serializable, attributes. rewrite Ho, Hb, Hc, Ht. reflexivity.
Qed.

Lemma after_to_dict_same (limit : nat) (d : Database) (l : list Obj) (r r0 r' : Response) :
  after_to_dict limit d l r = Ok r0 -> after_to_dict limit d l r' = Ok r'.
Proof.
  unfold after_to_dict. destruct (map_result _ _); simpl; [reflexivity|discriminate].
Qed.

Section Handlers_more.

Variable generate_password_hash : string -> string -> string.
Variable check_password_hash : string -> string -> bool.
Variable recursion_limit : nat.
Variable jwt_refusal : string -> Refusal.

Let serve :=
  App.serve generate_password_hash check_password_hash recursion_limit jwt_refusal.
Let run :=
  App.run generate_password_hash check_password_hash recursion_limit jwt_refusal.

(** [POST /register] either leaves the state alone, with an answer that
    is not 201 or with [ValueError], or commits one row for an address
    that is free and valid and then serialises the new user. *)
Lemma register_step (st : State) (now : Z) (salt : string) (data : RegisterData.t) :
  (snd (serve st now (POST_register salt data)) = st /\
   (forall b, fst (serve st now (POST_register salt data)) <> Ok (b, 201)) /\
   fst (serve st now (POST_register salt data)) <> Raise RecursionError) \/
  exists n e p,
    RegisterData.name data = Some n /\ n <> EmptyString /\
    RegisterData.email data = Some e /\
    RegisterData.password data = Some p /\ p <> EmptyString /\
    truthy_str (Some e) = true /\
    User_by_email (database st) (Some e) = None /\
    Re.match_anchored valid_email e = true /\
    let u := registered (database st) n e (generate_password_hash salt p) in
    let d' := set_users (database st) (users (database st) ++ [u]) in
    serve st now (POST_register salt data) =
    (after_to_dict recursion_limit d' [OUser u] (Dict (IUser (UserObj_of_row u)), 201),
     mkState d' (cookie st)).
Proof.
  pose proof (register_missing generate_password_hash check_password_hash
                recursion_limit jwt_refusal st now salt data) as Hmiss.
  fold serve in Hmiss.
  destruct (truthy_str (RegisterData.name data)) eqn:Hn;
    [|left; rewrite Hmiss by auto; split; [reflexivity|split; discriminate]].
  destruct (truthy_str (RegisterData.email data)) eqn:He;
    [|left; rewrite Hmiss by auto; split; [reflexivity|split; discriminate]].
  destruct (truthy_str (RegisterData.password data)) eqn:Hp;
    [|left; rewrite Hmiss by auto; split; [reflexivity|split; discriminate]].
  clear Hmiss.
  destruct (User_by_email (database st) (RegisterData.email data)) as [u|] eqn:Hu.
  - left. unfold serve.
    rewrite (register_conflict generate_password_hash check_password_hash
               recursion_limit jwt_refusal st now salt data u) by assumption.
    split; [reflexivity|split; discriminate].
  - destruct (truthy_str_true _ Hn) as (n & En & Nn).
    destruct (truthy_str_true _ He) as (e & Ee & Ne).
    destruct (truthy_str_true _ Hp) as (p & Ep & Np).
    rewrite Ee in Hu.
    destruct (Re.match_anchored valid_email e) eqn:Hm.
    + right. exists n, e, p.
      repeat (split; [first [assumption|rewrite <- Ee; exact He]|]).
      apply (register_created generate_password_hash check_password_hash
               recursion_limit jwt_refusal); assumption.
    + left. unfold serve.
      rewrite (register_invalid generate_password_hash check_password_hash
                 recursion_limit jwt_refusal st now salt data e) by assumption.
      split; [reflexivity|split; discriminate].
Qed.

(** The state after a request that is neither a registration nor the
    logout. *)
Lemma serve_state (st : State) (now : Z) (req : Request) :
  (forall salt data, req <> POST_register salt data) ->
  req <> POST_admin_logout ->
  snd (serve st now req) = st.
Proof.
  intros N L. unfold serve.
  destruct req as [salt data|data|j|j data|j data|j|j|j|j|j| |j|reply|rc payload];
    try (destruct j as [uid|]; [|apply serve_unauthenticated_state; reflexivity]).
  - exfalso. apply (N salt data). reflexivity.
  - apply serve_POST_login.
  - rewrite serve_GET_cart. reflexivity.
  - rewrite serve_POST_cart. reflexivity.
  - rewrite serve_POST_mpesa_transaction. reflexivity.
  - rewrite serve_GET_user_orders. reflexivity.
  - rewrite serve_GET_user_borrowings. reflexivity.
  - rewrite serve_GET_admin_users. reflexivity.
  - rewrite serve_GET_admin_transactions. reflexivity.
  - rewrite serve_GET_admin_borrowings. reflexivity.
  - congruence.
  - rewrite serve_GET_admin_check. reflexivity.
  - destruct st; reflexivity.
  - destruct st, rc; reflexivity.
Qed.

Lemma serve_logout (st : State) (now : Z) :
  serve st now POST_admin_logout =
  (Ok (Message "Logged out successfully", 200), mkState (database st) None).
Proof. destruct st. reflexivity. Qed.

Lemma request_kind (req : Request) :
  (exists salt data, req = POST_register salt data) \/
  req = POST_admin_logout \/
  ((forall salt data, req <> POST_register salt data) /\ req <> POST_admin_logout).
Proof.
  destruct req; try (right; right; split; [intros ? ?|]; discriminate).
  - left. eauto.
  - right. left. reflexivity.
Qed.

(** A request that is no registration leaves the database alone. *)
Lemma serve_reads (st : State) (now : Z) (req : Request) :
  (forall salt data, req <> POST_register salt data) ->
  database (snd (serve st now req)) = database st.
Proof.
  intros N.
  destruct (request_kind req) as [(salt & data & ->)|[->|[_ L]]].
  - exfalso. apply (N salt data). reflexivity.
  - rewrite serve_logout. reflexivity.
  - rewrite (serve_state st now req N L). reflexivity.
Qed.

(** What one request does to the [users] table. *)
Lemma serve_users (st : State) (now : Z) (req : Request) :
  database (snd (serve st now req)) = database st \/
  exists n e h,
    User_by_email (database st) (Some e) = None /\
    Re.match_anchored valid_email e = true /\
    database (snd (serve st now req)) =
    set_users (database st) (users (database st) ++ [registered (database st) n e h]).
Proof.
  destruct req as [salt data|data|j|j data|j data|j|j|j|j|j| |j|reply|rc payload];
    try (left; apply serve_reads; discriminate).
  destruct (register_step st now salt data)
    as [[H _]|(n & e & p & _ & _ & _ & _ & _ & _ & Hu & Hm & H)].
  - left. rewrite H. reflexivity.
  - right. exists n, e, (generate_password_hash salt p).
    rewrite H. simpl. auto.
Qed.

Lemma find_app_some {A : Type} (f : A -> bool) (l l' : list A) (x : A) :
  find f l = Some x -> find f (l ++ l') = Some x.
Proof.
  induction l as [|y l IH]; simpl; [discriminate|].
  destruct (f y); auto.
Qed.

Lemma find_none_not_in (l : list User.t) (e : string) :
  find (fun u => String.eqb (User.email u) e) l = None -> ~ In e (map User.email l).
Proof.
  intros H. apply no_string_key. apply find_none_existsb. exact H.
Qed.

(** The users a sequence of requests finds stored are still there
    afterwards, in front of the new ones. *)
Lemma run_users (reqs : list (Z * Request)) (st : State) :
  exists new, users (database (run st reqs)) = users (database st) ++ new.
Proof.
  destruct (run_database generate_password_hash check_password_hash
              recursion_limit jwt_refusal reqs st) as (new & E & _).
  exists new. unfold run. rewrite E. reflexivity.
Qed.

Lemma run_cons (st : State) (now : Z) (req : Request) (reqs : list (Z * Request)) :
  run st ((now, req) :: reqs) = run (snd (serve st now req)) reqs.
Proof. reflexivity. Qed.

(** X6.  No sequence of requests makes two users share an id or an
    address, or breaks any other key of the store: uniqueness of the
    primary keys and of the unique columns is kept. *)
Theorem requests_keep_the_keys (st : State) (reqs : list (Z * Request)) :
  keys_ok (database st) -> keys_ok (database (run st reqs)).
Proof.
  revert st. induction reqs as [|[now req] reqs IH]; intros st K; [exact K|].
  rewrite run_cons. apply IH.
  destruct (serve_users st now req) as [E|(n & e & h & Hu & _ & E)]; rewrite E;
    [exact K|].
  apply find_none_not_in in Hu. keys.
  - apply NoDup_map_snoc; [assumption|apply next_id_fresh].
  - apply NoDup_map_snoc; assumption.
Qed.

(** X7.  Every address that a sequence of requests stores has passed
    [validate_email]: if all stored addresses match the pattern, they still
    all do afterwards. *)
Theorem stored_emails_stay_valid (st : State) (reqs : list (Z * Request)) :
  emails_ok (database st) -> emails_ok (database (run st reqs)).
Proof.
  revert st. induction reqs as [|[now req] reqs IH]; intros st K; [exact K|].
  rewrite run_cons. apply IH.
  destruct (serve_users st now req) as [E|(n & e & h & _ & Hm & E)]; rewrite E;
    [exact K|].
  unfold emails_ok. simpl. apply Forall_app. split; [exact K|].
  constructor; [exact Hm|constructor].
Qed.

(** X8.  Among all the routes only [POST /register] writes to the
    database and only [POST /admin/logout] touches the session.  A
    request that is answered with another status than 201 has written
    nothing, and a request that ends with an exception other than
    [RecursionError] leaves no trace.  [Register.post] commits before it
    serialises the new user: a registration that ends with
    [RecursionError] has stored the user all the same. *)
Theorem only_registration_writes (st : State) (now : Z) (req : Request) :
  ((forall salt data, req <> POST_register salt data) ->
   database (snd (serve st now req)) = database st) /\
  (req <> POST_admin_logout -> cookie (snd (serve st now req)) = cookie st) /\
  (forall b code, fst (serve st now req) = Ok (b, code) -> code <> 201 ->
                  database (snd (serve st now req)) = database st) /\
  (forall e, fst (serve st now req) = Raise e -> e <> RecursionError ->
             snd (serve st now req) = st) /\
  (forall salt data, req = POST_register salt data ->
                     fst (serve st now req) = Raise RecursionError ->
                     exists u, users (database (snd (serve st now req))) =
                                 users (database st) ++ [u] /\
                               RegisterData.email data = Some (User.email u)).
Proof.
  split; [apply serve_reads|].
  destruct (request_kind req) as [(salt & data & ->)|[->|[N L]]].
  - destruct (register_step st now salt data)
      as [(H & _ & R)|(n & e & p & _ & _ & Ee & _ & _ & _ & _ & _ & H)].
    + rewrite H. split; [reflexivity|]. split; [reflexivity|]. split; [reflexivity|].
      intros salt' data' E. inversion E. subst. intros X. contradiction.
    + rewrite H. cbn [fst snd cookie database]. split; [reflexivity|]. split; [|split].
      * intros b code E. apply after_to_dict_ok in E. inversion E. congruence.
      * intros x E. apply after_to_dict_error in E. contradiction.
      * intros salt' data' E _. inversion E. subst. eexists. simpl. split; [reflexivity|].
        exact Ee.
  - rewrite serve_logout. simpl. split; [congruence|]. split; [reflexivity|].
    split; discriminate.
  - rewrite (serve_state st now req N L). split; [reflexivity|]. split; [reflexivity|].
    split; [reflexivity|]. intros salt data ->. exfalso. apply (N salt data). reflexivity.
Qed.

Lemma find_app_none {A : Type} (f : A -> bool) (l l' : list A) :
  find f l = None -> find f (l ++ l') = find f l'.
Proof.
  induction l as [|y l IH]; simpl; [reflexivity|].
  destruct (f y); [discriminate|exact IH].
Qed.

(** The address of a registration that was answered 201 is found
    afterwards, and gives the row that was stored; that row was
    serialised in the database as the registration left it. *)
Lemma registered_is_found (st : State) (now : Z) (salt : string) (data : RegisterData.t)
      (b : Body) (reqs : list (Z * Request)) :
  fst (serve st now (POST_register salt data)) = Ok (b, 201) ->
  exists u p,
    b = Dict (IUser (UserObj_of_row u)) /\
    RegisterData.password data = Some p /\
    User.password_hash u = generate_password_hash salt p /\
    truthy_str (RegisterData.email data) = true /\
    RegisterData.email data = Some (User.email u) /\
    User_by_email (database (run (snd (serve st now (POST_register salt data))) reqs))
                  (RegisterData.email data) = Some u /\
    forall r, after_to_dict recursion_limit
                (database (snd (serve st now (POST_register salt data)))) [OUser u] r = Ok r.
Proof.
  intros H.
  destruct (register_step st now salt data)
    as [(_ & N & _)|(n & e & p & _ & _ & Ee & Ep & _ & Te & Hu & _ & E)].
  - exfalso. apply (N b). exact H.
  - rewrite E in *. cbn [fst snd] in *.
    pose proof (after_to_dict_ok _ _ _ _ _ H) as B. inversion B.
    exists (registered (database st) n e (generate_password_hash salt p)), p.
    rewrite Ee. repeat (split; [auto; fail|]). split.
    + destruct (run_users reqs
                  (mkState (set_users (database st)
                              (users (database st) ++
                               [registered (database st) n e (generate_password_hash salt p)]))
                           (cookie st))) as (new & U).
      simpl. unfold User_by_email. rewrite U. simpl.
      apply find_app_some. simpl in Hu. rewrite (find_app_none _ _ _ Hu). simpl.
      rewrite String.eqb_refl. reflexivity.
    + intros r. eapply after_to_dict_same. exact H.
Qed.

(** X9.  An address that was registered stays taken: after a
    registration that was answered 201, and whatever requests follow,
    every registration with the same address is answered 400 "Email
    already exists" and changes nothing, whatever its name and
    password. *)
Theorem registered_address_stays_taken
        (st : State) (now : Z) (salt : string) (data : RegisterData.t) (b : Body)
        (reqs : list (Z * Request)) (now' : Z) (salt' : string) (data' : RegisterData.t) :
  fst (serve st now (POST_register salt data)) = Ok (b, 201) ->
  RegisterData.email data' = RegisterData.email data ->
  truthy_str (RegisterData.name data') = true ->
  truthy_str (RegisterData.password data') = true ->
  let st' := run (snd (serve st now (POST_register salt data))) reqs in
  serve st' now' (POST_register salt' data') = (Ok (Error "Email already exists", 400), st').
Proof.
  intros H Ee Hn Hp st'.
  destruct (registered_is_found st now salt data b reqs H)
    as (u & p & _ & _ & _ & Te & _ & F & _).
  apply (register_conflict generate_password_hash check_password_hash
           recursion_limit jwt_refusal st' now' salt' data' u);
    try assumption; rewrite Ee; assumption.
Qed.

(** X10.  Registration and login fit together: provided the check of
    the hashing library accepts the hashes the library makes, a login with
    the address and the password of a registration that was answered 201
    passes the password check, whatever requests came in between, and is
    never answered 401: it is answered 200, with the stored user and a
    token whose identity is the id of that user, once the user is
    serialised; right after the registration it is. *)
Theorem login_after_register
        (st : State) (now : Z) (salt : string) (data : RegisterData.t) (b : Body)
        (reqs : list (Z * Request)) (now' : Z) :
  (forall s p, check_password_hash (generate_password_hash s p) p = true) ->
  fst (serve st now (POST_register salt data)) = Ok (b, 201) ->
  let login := POST_login (LoginData.mk (RegisterData.email data)
                                        (RegisterData.password data)) in
  let st1 := snd (serve st now (POST_register salt data)) in
  let st' := run st1 reqs in
  exists u,
    b = Dict (IUser (UserObj_of_row u)) /\
    serve st1 now' login = (Ok (LoginDict "Login successful" (User.id u) u, 200), st1) /\
    serve st' now' login =
    (after_to_dict recursion_limit (database st') [OUser u]
       (LoginDict "Login successful" (User.id u) u, 200), st').
Proof.
  intros Hh H login st1 st'.
  destruct (registered_is_found st now salt data b reqs H)
    as (u & p & Eb & Ep & Eh & _ & _ & F & _).
  destruct (registered_is_found st now salt data b [] H)
    as (u1 & p1 & Eb1 & _ & _ & _ & _ & F1 & S1).
  assert (u1 = u) by (destruct u, u1; rewrite Eb in Eb1; inversion Eb1; reflexivity).
  subst u1. exists u. split; [exact Eb|]. subst login st' st1. unfold serve. split.
  - rewrite serve_POST_login_result.
    cbn [LoginData.email LoginData.password]. fold serve.
    change (run (snd (serve st now (POST_register salt data))) [])
      with (snd (serve st now (POST_register salt data))) in F1.
    rewrite F1, Ep, Eh, Hh, S1. reflexivity.
  - rewrite serve_POST_login_result.
    cbn [LoginData.email LoginData.password]. fold serve. fold run.
    rewrite F, Ep, Eh, Hh. reflexivity.
Qed.

(** X11.  A login that fails tells nothing about the reason: for an
    address that is not registered (or not given) and for a wrong password
    the answer is the same 401 "Invalid credentials", and nothing
    changes. *)
Theorem login_failures_look_alike (st : State) (now : Z) (data : LoginData.t) :
  (User_by_email (database st) (LoginData.email data) = None \/
   exists u p,
     User_by_email (database st) (LoginData.email data) = Some u /\
     LoginData.password data = Some p /\
     check_password_hash (User.password_hash u) p = false) ->
  serve st now (POST_login data) = (Ok (Error "Invalid credentials", 401), st).
Proof.
  unfold serve. rewrite serve_POST_login_result.
  intros [H|(u & p & Hu & Hp & Hc)].
  - rewrite H. reflexivity.
  - rewrite Hu, Hp, Hc. reflexivity.
Qed.

(** X12.  A token is only issued for a stored user, for the address
    that was given and after the password passed the check: the answer to a
    login carries a token only with status 200, the identity of the token
    is the id of the user in the answer, and that user is stored under the
    given address. *)
Theorem login_token_names_the_user
        (st : State) (now : Z) (data : LoginData.t)
        (message : string) (access_token : Z) (u : User.t) (code : Z) :
  fst (serve st now (POST_login data)) = Ok (LoginDict message access_token u, code) ->
  code = 200 /\ access_token = User.id u /\
  In u (users (database st)) /\
  LoginData.email data = Some (User.email u) /\
  exists p, LoginData.password data = Some p /\
            check_password_hash (User.password_hash u) p = true.
Proof.
  unfold serve. rewrite serve_POST_login_result. cbn [fst].
  destruct (User_by_email (database st) (LoginData.email data)) as [v|] eqn:Hu;
    [|discriminate].
  destruct (LoginData.password data) as [p|]; [|discriminate].
  destruct (check_password_hash (User.password_hash v) p) eqn:Hc; [|discriminate].
  intros E. apply after_to_dict_ok in E. inversion E. subst.
  unfold User_by_email in Hu. destruct (LoginData.email data) as [e|]; [|discriminate].
  apply find_some in Hu. destruct Hu as [I Ee]. apply String.eqb_eq in Ee.
  repeat split; auto; [congruence|eauto].
Qed.

(** X14.  [GET /cart] looks up the first stored cart of the identity of
    the token and changes nothing.  Without such a cart the answer is
    404, and only then.  With one, that cart is serialised: the answer is
    200 with it when its dictionary can be made, and the request ends
    with [RecursionError] when it cannot; no other answer and no other
    exception occurs. *)
Theorem cart_of_the_caller (st : State) (now uid : Z) :
  snd (serve st now (GET_cart (Some uid))) = st /\
  (forall c, Cart_by_user (database st) uid = Some c ->
             In c (carts (database st)) /\ Cart.user_id c = uid /\
             fst (serve st now (GET_cart (Some uid))) =
             after_to_dict recursion_limit (database st) [OCart c] (CartDict c, 200)) /\
  (forall b code, fst (serve st now (GET_cart (Some uid))) = Ok (b, code) ->
                  (b = Error "No cart found for user" /\ code = 404 /\
                   Cart_by_user (database st) uid = None) \/
                  (exists c, b = CartDict c /\ code = 200 /\
                             Cart_by_user (database st) uid = Some c)) /\
  (fst (serve st now (GET_cart (Some uid))) = Ok (Error "No cart found for user", 404) <->
   forall c, In c (carts (database st)) -> Cart.user_id c <> uid) /\
  (forall e, fst (serve st now (GET_cart (Some uid))) = Raise e ->
             e = RecursionError /\ exists c, Cart_by_user (database st) uid = Some c).
Proof.
  unfold serve. rewrite serve_GET_cart. cbn [fst snd]. split; [reflexivity|].
  destruct (Cart_by_user (database st) uid) as [c0|] eqn:F.
  - pose proof F as F'. unfold Cart_by_user in F'.
    apply find_some in F'. destruct F' as [I E]. apply Z.eqb_eq in E.
    split; [|split; [|split]].
    + intros c X. inversion X. subst. auto.
    + intros b code X. apply after_to_dict_ok in X. inversion X. right. eauto.
    + split.
      * intros X. apply after_to_dict_ok in X. discriminate.
      * intros H. exfalso. apply (H c0 I E).
    + intros e X. apply after_to_dict_error in X. eauto.
  - split; [discriminate|]. split; [|split].
    + intros b code X. inversion X. auto.
    + split; [|reflexivity].
      intros _ c I E. unfold Cart_by_user in F.
      apply (find_none _ _ F) in I. apply Z.eqb_neq in I. contradiction.
    + discriminate.
Qed.

Lemma find_user_by_id (l : list User.t) (u : User.t) :
  NoDup (map User.id l) -> In u l -> find (fun v => User.id v =? User.id u) l = Some u.
Proof.
  induction l as [|v l IH]; simpl; intros N I; [contradiction|].
  inversion N as [|x xs Nx Nl]. subst.
  destruct I as [->|I].
  - rewrite Z.eqb_refl. reflexivity.
  - destruct (Z.eqb_spec (User.id v) (User.id u)) as [E|_]; [|auto].
    exfalso. apply Nx. rewrite E. apply in_map. exact I.
Qed.

(** X15.  [/admin_check] goes by the token: with unique user ids, it
    answers 200 exactly when a stored user has the identity of the token as
    id and the admin flag set, and 403 otherwise; the session plays no part
    and nothing changes. *)
Theorem admin_check_goes_by_the_token (st : State) (now jwt : Z) :
  NoDup (map User.id (users (database st))) ->
  (fst (serve st now (GET_admin_check (Some jwt))) = Ok (Message "User is an admin", 200) <->
   exists u, In u (users (database st)) /\ User.id u = jwt /\ User.is_admin u = Some true) /\
  (fst (serve st now (GET_admin_check (Some jwt))) <> Ok (Message "User is an admin", 200) ->
   fst (serve st now (GET_admin_check (Some jwt))) = Ok (Message "User is not an admin", 403)) /\
  snd (serve st now (GET_admin_check (Some jwt))) = st /\
  (forall c, fst (serve (mkState (database st) c) now (GET_admin_check (Some jwt))) =
             fst (serve st now (GET_admin_check (Some jwt)))).
Proof.
  intros N. unfold serve. split; [|split; [|split]].
  - rewrite serve_GET_admin_check. simpl. split.
    + destruct (find (fun u => User.id u =? jwt) (users (database st))) as [u|] eqn:F;
        [|discriminate].
      apply find_some in F. destruct F as [I E]. apply Z.eqb_eq in E.
      destruct (User.is_admin u) as [[|]|] eqn:A; try discriminate.
      intros _. exists u. auto.
    + intros (u & I & E & A). subst jwt.
      rewrite (find_user_by_id _ u N I), A. reflexivity.
  - rewrite serve_GET_admin_check. simpl.
    destruct (find _ _) as [u|]; [|reflexivity].
    destruct (truthy_bool (User.is_admin u)); [congruence|reflexivity].
  - rewrite serve_GET_admin_check. reflexivity.
  - intros c. rewrite !serve_GET_admin_check. reflexivity.
Qed.

(** X16.  [POST /admin/logout] needs no token, answers 200 and clears
    the session key whatever it was; after it, and whatever requests
    follow, the three admin listings refuse every token with 403. *)
Theorem logout_closes_the_admin_listings
        (st : State) (now : Z) (reqs : list (Z * Request)) (now' jwt : Z) :
  let st' := run (snd (serve st now POST_admin_logout)) reqs in
  serve st now POST_admin_logout =
    (Ok (Message "Logged out successfully", 200), mkState (database st) None) /\
  serve st' now' (GET_admin_users (Some jwt)) =
    (Ok (Error "Admin privileges required", 403), st') /\
  serve st' now' (GET_admin_transactions (Some jwt)) =
    (Ok (Error "Admin privileges required", 403), st') /\
  serve st' now' (GET_admin_borrowings (Some jwt)) =
    (Ok (Error "Admin privileges required", 403), st').
Proof.
  intros st'. split; [apply serve_logout|].
  assert (A : session_is_admin st' = Some false).
  { apply is_admin_identity. left. unfold st'. rewrite serve_logout.
    apply (run_cookie generate_password_hash check_password_hash
             recursion_limit jwt_refusal). reflexivity. }
  unfold serve.
  rewrite serve_GET_admin_users, serve_GET_admin_transactions, serve_GET_admin_borrowings, A.
  auto.
Qed.

(** X17.  The admin listings go by the session and not by the token:
    the outcome is the same for any two tokens, and when the session
    names a stored user whose admin flag is set, no listing answers 403:
    each serialises every row of its table, and answers 200 with the
    whole table when all the dictionaries can be made and ends with
    [RecursionError] when one cannot. *)
Theorem admin_listings_go_by_the_session
        (st : State) (now j1 j2 k : Z) (u : User.t) :
  cookie st = Some k -> k <> 0 ->
  User_get (database st) (Some k) = Some u ->
  User.is_admin u = Some true ->
  serve st now (GET_admin_users (Some j1)) = serve st now (GET_admin_users (Some j2)) /\
  serve st now (GET_admin_transactions (Some j1)) =
    serve st now (GET_admin_transactions (Some j2)) /\
  serve st now (GET_admin_borrowings (Some j1)) =
    serve st now (GET_admin_borrowings (Some j2)) /\
  serve st now (GET_admin_users (Some j1)) =
    (after_to_dict recursion_limit (database st) (map OUser (users (database st)))
       (UserList (users (database st)), 200), st) /\
  serve st now (GET_admin_transactions (Some j1)) =
    (after_to_dict recursion_limit (database st)
       (map OTransaction (mpesa_transactions (database st)))
       (TransactionList (mpesa_transactions (database st)), 200), st) /\
  serve st now (GET_admin_borrowings (Some j1)) =
    (after_to_dict recursion_limit (database st) (map OBorrowing (borrowings (database st)))
       (BorrowingList (borrowings (database st)), 200), st).
Proof.
  intros Hc Hk Hu Ha.
  assert (A : session_is_admin st = Some true).
  { unfold session_is_admin. rewrite Hc. cbn [truthy_int].
    destruct (Z.eqb_spec k 0) as [|_]; [contradiction|]. cbn [negb].
    rewrite Hu. exact Ha. }
  unfold serve.
  rewrite !serve_GET_admin_users, !serve_GET_admin_transactions,
    !serve_GET_admin_borrowings, A.
  repeat split; reflexivity.
Qed.

(** X19.  The answers carry the credential: the body of a 201 from
    [POST /register] is the new user with all its columns, among them the
    password hash that was stored, and the user in the body of a 200 from
    [POST /login] is the stored row, hash included. *)
Theorem answers_carry_the_password_hash
        (st : State) (now : Z) (salt : string) (data : RegisterData.t) (b : Body)
        (login : LoginData.t) (message : string) (access_token : Z) (u : User.t) (code : Z) :
  (fst (serve st now (POST_register salt data)) = Ok (b, 201) ->
   exists o p,
     b = Dict (IUser o) /\
     RegisterData.password data = Some p /\
     UserObj.password_hash o = Some (generate_password_hash salt p) /\
     UserObj.email o = RegisterData.email data) /\
  (fst (serve st now (POST_login login)) = Ok (LoginDict message access_token u, code) ->
   User_by_email (database st) (LoginData.email login) = Some u).
Proof.
  split.
  - intros H.
    destruct (registered_is_found st now salt data b [] H)
      as (v & p & Eb & Ep & Eh & _ & Ee & _).
    exists (UserObj_of_row v), p. split; [exact Eb|]. split; [exact Ep|].
    simpl. rewrite Eh, Ee. auto.
  - unfold serve. rewrite serve_POST_login_result. cbn [fst].
    destruct (User_by_email (database st) (LoginData.email login)) as [v|];
      [|discriminate].
    destruct (LoginData.password login) as [p|]; [|discriminate].
    destruct (check_password_hash _ _); [|discriminate].
    intros E. apply after_to_dict_ok in E. inversion E. reflexivity.
Qed.

(** X20.  A registration goes through on a database whose foreign keys
    resolve: with the three fields given, an address that is free and
    passes the validator, and a recursion limit that lets [to_dict] be
    entered, the answer is 201 with the new user, who is stored with the
    next id, the hash of the password and without the admin flag; the
    foreign keys still resolve afterwards. *)
Theorem register_answers_201
        (st : State) (now : Z) (salt : string) (data : RegisterData.t) (n e p : string) :
  user_keys_ok (database st) ->
  (0 < recursion_limit)%nat ->
  RegisterData.name data = Some n -> n <> EmptyString ->
  RegisterData.email data = Some e -> e <> EmptyString ->
  RegisterData.password data = Some p -> p <> EmptyString ->
  User_by_email (database st) (Some e) = None ->
  Re.match_anchored valid_email e = true ->
  let u := User.mk (next_id (map User.id (users (database st)))) n e
                   (generate_password_hash salt p) (Some false) in
  let d' := set_users (database st) (users (database st) ++ [u]) in
  serve st now (POST_register salt data) =
    (Ok (Dict (IUser (UserObj_of_row u)), 201), mkState d' (cookie st)) /\
  user_keys_ok d'.
Proof.
  intros K L Hn Nn He Ne Hp Np Hu Hm u d'. split.
  - unfold serve.
    rewrite (register_created generate_password_hash check_password_hash
               recursion_limit jwt_refusal st now salt data n e p) by assumption.
    cbv zeta. unfold registered. fold u. fold d'. f_equal.
    destruct (new_user_is_alone (database st) K) as (Ho & Hb & Hc & Ht).
    destruct recursion_limit as [|m]; [inversion L|].
    destruct (serialize_new_user m d' u Ho Hb Hc Ht) as (j & E).
    unfold after_to_dict. cbn [map_result]. rewrite E. reflexivity.
  - destruct K as (Ko & Kb & Kc & Kt). unfold user_keys_ok, d'. simpl.
    rewrite map_app.
    repeat split; (eapply Forall_impl; [|eassumption]); simpl; intros x;
      try destruct (Order.user_id x); auto; intros; apply in_or_app; auto.
Qed.

(** X21.  On the database of seed.py nothing that belongs to a seeded
    user is ever returned: [GET /cart] with the token of one of the five
    seeded users, and a login with the address of a seeded user and a
    password that passes the check, end with [RecursionError], whatever
    the recursion limit: the cart leads to its user, the user to a
    borrowing, and the borrowing into the circle of C10. *)
Theorem seeded_users_are_not_serialised
        (h : string) (now t uid : Z) (c : option Z) (data : LoginData.t)
        (u : User.t) (p : string) :
  1 <= uid <= 5 ->
  User_by_email (seed h now) (LoginData.email data) = Some u ->
  LoginData.password data = Some p ->
  check_password_hash (User.password_hash u) p = true ->
  let st := mkState (seed h now) c in
  serve st t (GET_cart (Some uid)) = (Raise RecursionError, st) /\
  serve st t (POST_login data) = (Raise RecursionError, st).
Proof.
  intros H Hu Hp Hc st. subst st. unfold serve. split.
  - rewrite serve_GET_cart.
    assert (U : uid = 1 \/ uid = 2 \/ uid = 3 \/ uid = 4 \/ uid = 5) by lia.
    destruct U as [->|[->|[->|[->| ->]]]];
      (f_equal; eapply after_to_dict_raises; [left; reflexivity|diverge 2%nat]).
  - rewrite serve_POST_login_result. cbn [database]. rewrite Hu, Hp, Hc. f_equal.
    eapply after_to_dict_raises; [left; reflexivity|].
    unfold User_by_email in Hu. destruct (LoginData.email data) as [e|]; [|discriminate].
    apply find_some in Hu. destruct Hu as [I _]. simpl in I.
    destruct I as [<-|[<-|[<-|[<-|[<-|[]]]]]]; diverge 2%nat.
Qed.

End Handlers_more.

(** ** Instances of the further results *)

Lemma validate_email_ignores_the_ending_witness :
  validate_email (Some "a@b.c."%string) = Ok (Some "a@b.c."%string).
Proof.
  apply (validate_email_ignores_the_ending "a@b.c"%string "."%char);
    vm_compute; reflexivity.
Defined.

Lemma flushed_order_has_valid_status_witness :
  let d := seed Demo.hashed 0 in
  let d' := set_orders d (orders d ++ [Order.mk 6 0 "Shipped" (Some 2)]) in
  orders_ok d' /\
  (exists row, orders d' = orders d ++ [row] /\
               Order.status row = default "Pending"%string (Some "Shipped"%string) /\
               Order.user_id row = Some 2) /\
  (forall s, ~ In s VALID_STATUSES ->
             Order_new (Some 0) (Some s) (Some 2) = Raise (ValueError "Invalid order status")).
Proof.
  apply (flushed_order_has_valid_status 0 (seed Demo.hashed 0)
           (set_orders (seed Demo.hashed 0)
              (orders (seed Demo.hashed 0) ++ [Order.mk 6 0 "Shipped" (Some 2)]))
           (Some 0) (Some 2) (Some "Shipped"%string)
           (OrderObj.mk None (Some 0) (Some "Shipped"%string) (Some 2) [])
           (OrderObj.mk (Some 6) (Some 0) (Some "Shipped"%string) (Some 2) [])).
  - unfold orders_ok. simpl. repeat (apply Forall_cons; [simpl; tauto|]). apply Forall_nil.
  - vm_compute. reflexivity.
  - vm_compute. reflexivity.
Defined.

Lemma seed_keys_ok (h : string) (now : Z) : keys_ok (seed h now).
Proof.
  unfold keys_ok. simpl.
  repeat split; repeat constructor; simpl; intuition discriminate.
Qed.



Lemma requests_keep_the_keys_witness :
  keys_ok (database (Demo.run Scenario.st0 Scenario.requests)).
Proof.
  apply (requests_keep_the_keys Demo.generate_password_hash Demo.check_password_hash
           Demo.recursion_limit Demo.jwt_refusal
           Scenario.st0 Scenario.requests).
  apply seed_keys_ok.
Defined.

Lemma seed_emails_ok (h : string) (now : Z) : emails_ok (seed h now).
Proof.
  unfold emails_ok. simpl.
  repeat (apply Forall_cons; [vm_compute; reflexivity|]). apply Forall_nil.
Qed.

Lemma stored_emails_stay_valid_witness :
  emails_ok (database (Demo.run Scenario.st0 Scenario.requests)).
Proof.
  apply (stored_emails_stay_valid Demo.generate_password_hash Demo.check_password_hash
           Demo.recursion_limit Demo.jwt_refusal
           Scenario.st0 Scenario.requests).
  apply seed_emails_ok.
Defined.

Lemma only_registration_writes_witness :
  database (snd (Demo.serve Scenario.st1 2 (GET_user_orders (Some 1)))) =
    database Scenario.st1 /\
  cookie (snd (Demo.serve Scenario.st0 1 (POST_register "salt" Scenario.frank))) =
    cookie Scenario.st0 /\
  database (snd (Demo.serve Scenario.st1 2 (POST_register "salt" Scenario.frank))) =
    database Scenario.st1 /\
  snd (Demo.serve Scenario.st1 2 (POST_cart (Some 6) (CartData.mk (Some 1) (Some 2)))) =
    Scenario.st1.
Proof.
  split; [|split; [|split]].
  - apply (proj1 (only_registration_writes Demo.generate_password_hash Demo.check_password_hash
                  Demo.recursion_limit Demo.jwt_refusal
                  Scenario.st1 2 (GET_user_orders (Some 1)))).
    discriminate.
  - apply (proj1 (proj2 (only_registration_writes Demo.generate_password_hash
                         Demo.check_password_hash Demo.recursion_limit Demo.jwt_refusal
                         Scenario.st0 1
                           (POST_register "salt" Scenario.frank)))).
    discriminate.
  - apply (proj1 (proj2 (proj2 (only_registration_writes Demo.generate_password_hash
                                Demo.check_password_hash Demo.recursion_limit Demo.jwt_refusal
                                Scenario.st1 2
                                  (POST_register "salt" Scenario.frank))))
             (Error "Email already exists") 400).
    + vm_compute. reflexivity.
    + discriminate.
  - apply (proj1 (proj2 (proj2 (proj2 (only_registration_writes
                                         Demo.generate_password_hash Demo.check_password_hash
                                         Demo.recursion_limit Demo.jwt_refusal
                                         Scenario.st1 2
                                         (POST_cart (Some 6)
                                            (CartData.mk (Some 1) (Some 2)))))))
             (IntegrityError (NotNull "order_books" "order_id"))).
    + vm_compute. reflexivity.
    + discriminate.
Defined.

Lemma registered_address_stays_taken_witness :
  let st' := Demo.run (snd (Demo.serve Scenario.st0 1 (POST_register "salt" Scenario.frank)))
                      Scenario.requests in
  Demo.serve st' 9
    (POST_register "pepper"
       (RegisterData.mk (Some "Francis"%string) (Some "frank@example.com"%string)
                        (Some "secret"%string))) =
  (Ok (Error "Email already exists", 400), st').
Proof.
  apply (registered_address_stays_taken Demo.generate_password_hash Demo.check_password_hash
           Demo.recursion_limit Demo.jwt_refusal
           Scenario.st0 1 "salt" Scenario.frank frank_body Scenario.requests 9 "pepper"
           (RegisterData.mk (Some "Francis"%string) (Some "frank@example.com"%string)
                            (Some "secret"%string)));
    vm_compute; reflexivity.
Defined.

Lemma ends_with_append (pre suf : string) :
  Demo.ends_with suf (pre ++ suf)%string = true.
Proof.
  induction pre as [|c pre IH]; simpl.
  - destruct suf; simpl; [reflexivity|].
    rewrite Ascii.eqb_refl, String.eqb_refl. reflexivity.
  - rewrite IH. apply orb_true_r.
Qed.

(** The stand-in check accepts the stand-in hashes. *)
Lemma demo_check_accepts (salt password : string) :
  Demo.check_password_hash (Demo.generate_password_hash salt password) password = true.
Proof.
  unfold Demo.check_password_hash, Demo.generate_password_hash.
  rewrite <- (append_assoc "$2b$12$" salt ("$" ++ Demo.rev_string password)).
  apply ends_with_append.
Qed.

Lemma login_after_register_witness :
  let login := POST_login (LoginData.mk (RegisterData.email Scenario.frank)
                                        (RegisterData.password Scenario.frank)) in
  let st1 := snd (Demo.serve Scenario.st0 1 (POST_register "salt" Scenario.frank)) in
  let st' := Demo.run st1 Scenario.requests in
  exists u,
    frank_body = Dict (IUser (UserObj_of_row u)) /\
    Demo.serve st1 9 login = (Ok (LoginDict "Login successful" (User.id u) u, 200), st1) /\
    Demo.serve st' 9 login =
    (after_to_dict Demo.recursion_limit (database st') [OUser u]
       (LoginDict "Login successful" (User.id u) u, 200), st').
Proof.
  apply (login_after_register Demo.generate_password_hash Demo.check_password_hash
           Demo.recursion_limit Demo.jwt_refusal
           Scenario.st0 1 "salt" Scenario.frank frank_body Scenario.requests 9).
  - apply demo_check_accepts.
  - vm_compute. reflexivity.
Defined.

Lemma login_failures_look_alike_witness :
  Demo.serve Scenario.st1 2
    (POST_login (LoginData.mk (Some "nobody@example.com"%string) (Some "password"%string))) =
    (Ok (Error "Invalid credentials", 401), Scenario.st1) /\
  Demo.serve Scenario.st1 2
    (POST_login (LoginData.mk (Some "frank@example.com"%string) (Some "guess"%string))) =
    (Ok (Error "Invalid credentials", 401), Scenario.st1).
Proof.
  split.
  - apply (login_failures_look_alike Demo.generate_password_hash Demo.check_password_hash
             Demo.recursion_limit Demo.jwt_refusal
             Scenario.st1 2
             (LoginData.mk (Some "nobody@example.com"%string) (Some "password"%string))).
    left. vm_compute. reflexivity.
  - apply (login_failures_look_alike Demo.generate_password_hash Demo.check_password_hash
             Demo.recursion_limit Demo.jwt_refusal
             Scenario.st1 2
             (LoginData.mk (Some "frank@example.com"%string) (Some "guess"%string))).
    right.
    exists (User.mk 6 "Frank" "frank@example.com" Demo.hashed (Some false)), "guess"%string.
    repeat split; vm_compute; reflexivity.
Defined.

Lemma login_token_names_the_user_witness :
  let u := User.mk 6 "Frank" "frank@example.com" Demo.hashed (Some false) in
  200 = 200 /\ 6 = User.id u /\
  In u (users (database Scenario.st1)) /\
  Some "frank@example.com"%string = Some (User.email u) /\
  exists p, Some "password"%string = Some p /\
            Demo.check_password_hash (User.password_hash u) p = true.
Proof.
  apply (login_token_names_the_user Demo.generate_password_hash Demo.check_password_hash
           Demo.recursion_limit Demo.jwt_refusal
           Scenario.st1 2
           (LoginData.mk (Some "frank@example.com"%string) (Some "password"%string))
           "Login successful" 6
           (User.mk 6 "Frank" "frank@example.com" Demo.hashed (Some false)) 200).
  vm_compute. reflexivity.
Defined.

Lemma admin_check_goes_by_the_token_witness :
  fst (Demo.serve Scenario.st_admin 1 (GET_admin_check (Some 1))) =
    Ok (Message "User is an admin", 200) /\
  fst (Demo.serve Scenario.st_admin 1 (GET_admin_check (Some 2))) =
    Ok (Message "User is not an admin", 403).
Proof.
  split.
  - apply (proj1 (admin_check_goes_by_the_token Demo.generate_password_hash
                  Demo.check_password_hash Demo.recursion_limit Demo.jwt_refusal
                  Scenario.st_admin 1 1
                    ltac:(simpl; repeat constructor; simpl; intuition discriminate))).
    exists (User.mk 1 "Alice" "alice@example.com" Demo.hashed (Some true)).
    simpl. auto.
  - apply (proj1 (proj2 (admin_check_goes_by_the_token Demo.generate_password_hash
                         Demo.check_password_hash Demo.recursion_limit Demo.jwt_refusal
                         Scenario.st_admin 1 2
                           ltac:(simpl; repeat constructor; simpl; intuition discriminate)))).
    vm_compute. discriminate.
Defined.

Lemma admin_listings_go_by_the_session_witness :
  let st := Scenario.st_root in
  Demo.serve st 1 (GET_admin_users (Some 2)) = Demo.serve st 1 (GET_admin_users (Some 3)) /\
  Demo.serve st 1 (GET_admin_transactions (Some 2)) =
    Demo.serve st 1 (GET_admin_transactions (Some 3)) /\
  Demo.serve st 1 (GET_admin_borrowings (Some 2)) =
    Demo.serve st 1 (GET_admin_borrowings (Some 3)) /\
  Demo.serve st 1 (GET_admin_users (Some 2)) =
    (after_to_dict Demo.recursion_limit (database st) (map OUser (users (database st)))
       (UserList (users (database st)), 200), st) /\
  Demo.serve st 1 (GET_admin_transactions (Some 2)) =
    (after_to_dict Demo.recursion_limit (database st)
       (map OTransaction (mpesa_transactions (database st)))
       (TransactionList (mpesa_transactions (database st)), 200), st) /\
  Demo.serve st 1 (GET_admin_borrowings (Some 2)) =
    (after_to_dict Demo.recursion_limit (database st)
       (map OBorrowing (borrowings (database st)))
       (BorrowingList (borrowings (database st)), 200), st).
Proof.
  apply (admin_listings_go_by_the_session Demo.generate_password_hash Demo.check_password_hash
           Demo.recursion_limit Demo.jwt_refusal
           Scenario.st_root 1 2 3 1
           (User.mk 1 "Root" "root@example.com" Demo.hashed (Some true)));
    try reflexivity.
  discriminate.
Defined.

Lemma answers_carry_the_password_hash_witness :
  (exists o p,
     frank_body = Dict (IUser o) /\
     RegisterData.password Scenario.frank = Some p /\
     UserObj.password_hash o = Some (Demo.generate_password_hash "salt" p) /\
     UserObj.email o = RegisterData.email Scenario.frank) /\
  User_by_email (database Scenario.st1) (Some "frank@example.com"%string) =
    Some (User.mk 6 "Frank" "frank@example.com" Demo.hashed (Some false)).
Proof.
  split.
  - apply (proj1 (answers_carry_the_password_hash Demo.generate_password_hash
                  Demo.check_password_hash Demo.recursion_limit Demo.jwt_refusal
                  Scenario.st0 1 "salt" Scenario.frank frank_body
                    (LoginData.mk None None) "" 0
                    (User.mk 6 "Frank" "frank@example.com" Demo.hashed (Some false)) 200)).
    vm_compute. reflexivity.
  - apply (proj2 (answers_carry_the_password_hash Demo.generate_password_hash
                  Demo.check_password_hash Demo.recursion_limit Demo.jwt_refusal
                  Scenario.st1 2 "salt" Scenario.frank frank_body
                    (LoginData.mk (Some "frank@example.com"%string) (Some "password"%string))
                    "Login successful" 6
                    (User.mk 6 "Frank" "frank@example.com" Demo.hashed (Some false)) 200)).
    vm_compute. reflexivity.
Defined.

Lemma seed_user_keys_ok (h : string) (now : Z) : user_keys_ok (seed h now).
Proof.
  unfold user_keys_ok. simpl.
  repeat split; repeat (apply Forall_cons; [simpl; tauto|]); apply Forall_nil.
Qed.

Lemma register_answers_201_witness :
  let u := User.mk 6 "Frank" "frank@example.com" Demo.hashed (Some false) in
  let d' := set_users (database Scenario.st0) (users (database Scenario.st0) ++ [u]) in
  Demo.serve Scenario.st0 1 (POST_register "salt" Scenario.frank) =
    (Ok (Dict (IUser (UserObj_of_row u)), 201), mkState d' (cookie Scenario.st0)) /\
  user_keys_ok d'.
Proof.
  apply (register_answers_201 Demo.generate_password_hash Demo.check_password_hash
           Demo.recursion_limit Demo.jwt_refusal
           Scenario.st0 1 "salt" Scenario.frank "Frank" "frank@example.com" "password");
    try (vm_compute; reflexivity); try discriminate.
  - apply seed_user_keys_ok.
  - unfold Demo.recursion_limit. lia.
Defined.

Lemma seeded_users_are_not_serialised_witness :
  Demo.serve Scenario.st0 1 (GET_cart (Some 1)) = (Raise RecursionError, Scenario.st0) /\
  Demo.serve Scenario.st0 1
    (POST_login (LoginData.mk (Some "alice@example.com"%string) (Some "password"%string))) =
    (Raise RecursionError, Scenario.st0).
Proof.
  apply (seeded_users_are_not_serialised Demo.generate_password_hash Demo.check_password_hash
           Demo.recursion_limit Demo.jwt_refusal
           Demo.hashed 0 1 1 None
           (LoginData.mk (Some "alice@example.com"%string) (Some "password"%string))
           (User.mk 1 "Alice" "alice@example.com" Demo.hashed (Some false))
           "password"%string);
    try (vm_compute; reflexivity).
  lia.
Defined.
